(** * SimpleThirdPersonCamera: a third-person camera rig and its collision probe

    A shallow embedding of [SimpleThirdPersonCamera.py] (the base rig) and
    [SimpleThirdPersonCameraPandaCollision.py] (the four-segment probe).

    Numbers.  The rig computes with Python numbers that end up in Panda3D
    node transforms.  They are modelled as real numbers: every arithmetic
    statement below is a statement about the formula the code evaluates, with
    exact arithmetic in place of rounding.  Where rounding decides (whether
    a small step registers at all), module [Binary] repeats the lines
    concerned on floating-point numbers.

    Objects.  A rig is a record of its attributes.  The two nodes the rig
    creates for itself ([cameraBase], [cameraHolder]) are stored with their
    local transform; the borrowed camera and owner are handles.  Calls that
    edit the scene graph are recorded in a log, so that what a method did to
    nodes it does not own can be read back.

    Methods.  A method is a function from the rig before the call to an
    [outcome]: it returns a value or raises, and in both cases leaves a rig
    and a log behind. *)

From Stdlib Require Import Reals Lra Psatz List String ZArith Floats.SpecFloat.
Import ListNotations.
Local Open Scope R_scope.

Set Implicit Arguments.

(* ===================================================================== *)
(** * Python values and exceptions *)

(** What a probe may hand back: a number, or [None] (a body that is only
    [pass]). *)
Inductive pyval : Type :=
| PyNone
| PyNum (x : R).

Inductive pyerror : Type :=
| TypeError
| AttributeError
| AssertionError.

(* ===================================================================== *)
(** * The scene-graph collaborator *)

Definition Handle := nat.

(** A node is either borrowed from the caller or was made by the rig with
    [PandaNode(name)] / [CollisionNode(name)]. *)
Inductive NodeRef : Type :=
| Borrowed (h : Handle)
| Created (name : string).

(** Calls that edit the scene graph or a traverser. *)
Inductive SceneOp : Type :=
| AttachNewNode (parent child : NodeRef)
| ReparentTo (np parent : NodeRef)
| DetachNode (np : NodeRef)
| RemoveNode (np : NodeRef)
| AddCollider (np : NodeRef)
| RemoveCollider (np : NodeRef).

(** A [NodePath] of the rig's own: the node it points to and the local
    transform components the rig reads and writes. *)
Record NodePath : Type := mkNodePath {
  node : NodeRef;
  getX : R;
  getY : R;
  getZ : R;
  getP : R
}.

Definition newNodePath (n : NodeRef) : NodePath := mkNodePath n 0 0 0 0.

Definition setX (np : NodePath) (v : R) : NodePath :=
  mkNodePath (node np) v (getY np) (getZ np) (getP np).
Definition setY (np : NodePath) (v : R) : NodePath :=
  mkNodePath (node np) (getX np) v (getZ np) (getP np).
Definition setZ (np : NodePath) (v : R) : NodePath :=
  mkNodePath (node np) (getX np) (getY np) v (getP np).
Definition setP (np : NodePath) (v : R) : NodePath :=
  mkNodePath (node np) (getX np) (getY np) (getZ np) v.

(* ===================================================================== *)
(** * The rig *)

Definition SIMPLE_THIRD_PERSON_CAMERA_SIDE_LEFT : R := -1.
Definition SIMPLE_THIRD_PERSON_CAMERA_SIDE_CENTRE : R := 0.
Definition SIMPLE_THIRD_PERSON_CAMERA_SIDE_CENTER : R := 0.
Definition SIMPLE_THIRD_PERSON_CAMERA_SIDE_RIGHT : R := 1.

(** The attributes of a [SimpleThirdPersonCamera]; [ext] holds the
    attributes a sub-class adds. *)
Record rig (E : Type) : Type := mkRig {
  camera : option Handle;
  ownerNodePath : option Handle;
  shoulderSideDistance : R;
  intendedDistance : R;
  height : R;
  tilt : R;
  sideSwitchSpeed : R;
  adjustmentSpeed : R;
  cameraBase : option NodePath;
  cameraHolder : NodePath;
  currentSide : R;
  ext : E
}.

Section Setters.
Context {E : Type}.

Definition set_camera (v : option Handle) (s : rig E) : rig E :=
  mkRig v (ownerNodePath s) (shoulderSideDistance s) (intendedDistance s)
        (height s) (tilt s) (sideSwitchSpeed s) (adjustmentSpeed s)
        (cameraBase s) (cameraHolder s) (currentSide s) (ext s).

Definition set_ownerNodePath (v : option Handle) (s : rig E) : rig E :=
  mkRig (camera s) v (shoulderSideDistance s) (intendedDistance s)
        (height s) (tilt s) (sideSwitchSpeed s) (adjustmentSpeed s)
        (cameraBase s) (cameraHolder s) (currentSide s) (ext s).

Definition set_cameraBase (v : option NodePath) (s : rig E) : rig E :=
  mkRig (camera s) (ownerNodePath s) (shoulderSideDistance s)
        (intendedDistance s) (height s) (tilt s) (sideSwitchSpeed s)
        (adjustmentSpeed s) v (cameraHolder s) (currentSide s) (ext s).

Definition set_cameraHolder (v : NodePath) (s : rig E) : rig E :=
  mkRig (camera s) (ownerNodePath s) (shoulderSideDistance s)
        (intendedDistance s) (height s) (tilt s) (sideSwitchSpeed s)
        (adjustmentSpeed s) (cameraBase s) v (currentSide s) (ext s).

Definition set_currentSide (v : R) (s : rig E) : rig E :=
  mkRig (camera s) (ownerNodePath s) (shoulderSideDistance s)
        (intendedDistance s) (height s) (tilt s) (sideSwitchSpeed s)
        (adjustmentSpeed s) (cameraBase s) (cameraHolder s) v (ext s).

Definition set_ext (v : E) (s : rig E) : rig E :=
  mkRig (camera s) (ownerNodePath s) (shoulderSideDistance s)
        (intendedDistance s) (height s) (tilt s) (sideSwitchSpeed s)
        (adjustmentSpeed s) (cameraBase s) (cameraHolder s)
        (currentSide s) v.
End Setters.

(* ===================================================================== *)
(** * Methods: state, exceptions and the log of scene edits *)

Inductive outcome (S A : Type) : Type :=
| Returns (a : A) (s : S) (ops : list SceneOp)
| Raises (e : pyerror) (s : S) (ops : list SceneOp).

Arguments Returns {S A} a s ops.
Arguments Raises {S A} e s ops.

Definition method (S A : Type) : Type := S -> outcome S A.

Section Monad.
Context {S : Type}.

Definition ret {A} (a : A) : method S A := fun s => Returns a s [].

Definition bind {A B} (m : method S A) (k : A -> method S B) : method S B :=
  fun s =>
    match m s with
    | Returns a s1 ops1 =>
        match k a s1 with
        | Returns b s2 ops2 => Returns b s2 (ops1 ++ ops2)
        | Raises e s2 ops2 => Raises e s2 (ops1 ++ ops2)
        end
    | Raises e s1 ops1 => Raises e s1 ops1
    end.

Definition raise {A} (e : pyerror) : method S A := fun s => Raises e s [].

(** [self.attr] *)
Definition getattr {A} (f : S -> A) : method S A := fun s => Returns (f s) s [].

(** [self.attr = v], through one of the setters *)
Definition assign (f : S -> S) : method S unit := fun s => Returns tt (f s) [].

(** a call that edits the scene graph *)
Definition call (op : SceneOp) : method S unit := fun s => Returns tt s [op].

(** [x.m(...)] where [x] may be [None] *)
Definition deref {A} (o : option A) : method S A :=
  match o with
  | Some a => ret a
  | None => raise AttributeError
  end.

(** the state a call leaves behind, whether it returned or raised *)
Definition final {A} (o : outcome S A) : S :=
  match o with
  | Returns _ s _ => s
  | Raises _ s _ => s
  end.

Definition logged {A} (o : outcome S A) : list SceneOp :=
  match o with
  | Returns _ _ ops => ops
  | Raises _ _ ops => ops
  end.
End Monad.

Declare Scope method_scope.
Delimit Scope method_scope with method.
Notation "x <- c ;; k" := (bind c (fun x => k))
  (at level 61, c at next level, right associativity) : method_scope.
Notation "c ;; k" := (bind c (fun _ => k))
  (at level 61, right associativity) : method_scope.
Local Open Scope method_scope.

(** the same call made [n] times in a row *)
Fixpoint times {S} (n : nat) (m : method S unit) : method S unit :=
  match n with
  | O => ret tt
  | Datatypes.S n' => m ;; times n' m
  end.

(** [x > y] on Python values: ordering a number against [None] raises. *)
Definition py_gt {S} (x y : pyval) : method S bool :=
  match x, y with
  | PyNum a, PyNum b => ret (if Rgt_dec a b then true else false)
  | _, _ => raise TypeError
  end.

(** [x - y] on Python values. *)
Definition py_sub {S} (x y : pyval) : method S R :=
  match x, y with
  | PyNum a, PyNum b => ret (a - b)
  | _, _ => raise TypeError
  end.

(* ===================================================================== *)
(** * The collision collaborator *)

Record Vec3 : Type := mkVec3 { vx : R; vy : R; vz : R }.

Definition vsub (a b : Vec3) : Vec3 :=
  mkVec3 (vx a - vx b) (vy a - vy b) (vz a - vz b).

Definition lengthSquared (v : Vec3) : R :=
  vx v * vx v + vy v * vy v + vz v * vz v.

(** [v.length()] *)
Definition vlength (v : Vec3) : R := sqrt (lengthSquared v).

Definition origin : Vec3 := mkVec3 0 0 0.

(** [CollisionSegment(ax, ay, az, bx, by, bz)].  Panda3D's constructor
    asserts that the two ends differ and does not hand out a segment
    otherwise; [Segment] is the segment it hands out when they do. *)
Record CollisionSegment : Type := mkSegment { pointA : Vec3; pointB : Vec3 }.

Definition Segment (ax ay az bx by_ bz : R) : CollisionSegment :=
  mkSegment (mkVec3 ax ay az) (mkVec3 bx by_ bz).

(** What the constructor asserts of a segment. *)
Definition segment_accepted (seg : CollisionSegment) : Prop :=
  pointA seg <> pointB seg.

Record CollisionNode : Type := mkCollisionNode {
  solids : list CollisionSegment;
  intoCollideMask : nat;
  fromCollideMask : nat
}.

Definition addSolid (seg : CollisionSegment) (cn : CollisionNode) : CollisionNode :=
  mkCollisionNode (solids cn ++ [seg]) (intoCollideMask cn) (fromCollideMask cn).
Definition setIntoCollideMask (m : nat) (cn : CollisionNode) : CollisionNode :=
  mkCollisionNode (solids cn) m (fromCollideMask cn).
Definition setFromCollideMask (m : nat) (cn : CollisionNode) : CollisionNode :=
  mkCollisionNode (solids cn) (intoCollideMask cn) m.

(** A traverser knows the colliders that were added to it. *)
Record CollisionTraverser : Type := mkTraverser { colliders : list NodeRef }.

(** The queue is filled afresh by every traversal; the rig only holds on to
    the object. *)
Inductive CollisionHandlerQueue : Type := mkQueue.

(** One recorded intersection: the solid of the rig's collider that was hit
    from, and the point where it met the scene, both in the frame of the
    collider (which is the frame of [cameraBase], the collider being attached
    to it without a transform of its own). *)
Record CollisionEntry : Type := mkEntry {
  fromSolid : CollisionSegment;
  surfacePoint : Vec3
}.

(** What the scene answers during one call: the intersections a traversal
    from its root records for the rig's collider, and where a point given in
    the frame of [cameraBase] lies in the frame of the root. *)
Record SceneRoot : Type := mkScene {
  traverse : list CollisionEntry;
  toScene : Vec3 -> Vec3
}.

(** [entry.getSurfacePoint(sceneRoot)] *)
Definition getSurfacePoint (entry : CollisionEntry) (sceneRoot : SceneRoot) : Vec3 :=
  toScene sceneRoot (surfacePoint entry).

(** [cameraBase.getPos(sceneRoot)] *)
Definition getPos (sceneRoot : SceneRoot) : Vec3 := toScene sceneRoot origin.

(** The key [sortEntries] orders a queue by: the squared distance between
    the intersection and the origin of the solid it was hit from, which for a
    segment is its first point. *)
Definition originDistance2 (e : CollisionEntry) : R :=
  lengthSquared (vsub (surfacePoint e) (pointA (fromSolid e))).

Fixpoint insertEntry (e : CollisionEntry) (q : list CollisionEntry) : list CollisionEntry :=
  match q with
  | [] => [e]
  | x :: q' =>
      if Rle_dec (originDistance2 e) (originDistance2 x)
      then e :: x :: q'
      else x :: insertEntry e q'
  end.

(** [collisionQueue.sortEntries()]: entries come out by increasing key.
    The order among entries of equal key is left open by the collaborator;
    what is proved about the first entry does not depend on it. *)
Definition sortEntries (q : list CollisionEntry) : list CollisionEntry :=
  fold_right insertEntry [] q.

(* ===================================================================== *)
(** * The overridable collision methods *)

Class CollisionHooks (E : Type) : Type := {
  setupCollision : method (rig E) unit;
  getNearestCollision : SceneRoot -> method (rig E) pyval;
  cleanupCollision : method (rig E) unit
}.

(** The base class: three stubs whose body is [pass]. *)
#[export] Instance SimpleThirdPersonCamera : CollisionHooks unit := {
  setupCollision := ret tt;
  getNearestCollision := fun _ => ret PyNone;
  cleanupCollision := ret tt
}.

(* ===================================================================== *)
(** * The methods of the base class *)

Section Rig.
Context {E : Type} {hooks : CollisionHooks E}.

Definition setCurrentSide (side : R) : method (rig E) unit :=
  assign (set_currentSide side).

Definition update (dt : R) (sceneRoot : SceneRoot) : method (rig E) unit :=
  holder <- getattr (@cameraHolder E) ;;
  let currentDistance := Rabs (getY holder) in
  targetY <- getattr (@intendedDistance E) ;;
  collisionDistance <- getNearestCollision sceneRoot ;;
  closer <- py_gt (PyNum targetY) collisionDistance ;;
  let targetY := if closer : bool then collisionDistance else PyNum targetY in
  yDiff <- py_sub targetY (PyNum currentDistance) ;;
  speed <- getattr (@adjustmentSpeed E) ;;
  let offsetVal := speed * dt in
  let offsetVal := if Rgt_dec offsetVal 1 then 1 else offsetVal in
  let offset := yDiff * offsetVal in
  holder <- getattr (@cameraHolder E) ;;
  assign (set_cameraHolder (setY holder (- currentDistance - offset))) ;;
  base <- getattr (@cameraBase E) ;;
  base <- deref base ;;
  let currentSideDistance := getX base in
  shoulder <- getattr (@shoulderSideDistance E) ;;
  side <- getattr (@currentSide E) ;;
  let sideDiff := shoulder * side - currentSideDistance in
  speed <- getattr (@sideSwitchSpeed E) ;;
  let currentSideDistance :=
    if Rlt_dec (Rabs sideDiff) 0.001
    then shoulder * side
    else
      let offsetVal := speed * dt in
      let offsetVal := if Rgt_dec offsetVal 1 then 1 else offsetVal in
      let offset := sideDiff * offsetVal in
      currentSideDistance + offset in
  assign (set_cameraBase (Some (setX base currentSideDistance))).

Definition cleanup : method (rig E) unit :=
  cam <- getattr (@camera E) ;;
  match cam with
  | Some c => call (DetachNode (Borrowed c)) ;; assign (set_camera None)
  | None => ret tt
  end ;;
  owner <- getattr (@ownerNodePath E) ;;
  match owner with
  | Some _ => assign (set_ownerNodePath None)
  | None => ret tt
  end ;;
  cleanupCollision ;;
  base <- getattr (@cameraBase E) ;;
  match base with
  | Some b => call (RemoveNode (node b)) ;; assign (set_cameraBase None)
  | None => ret tt
  end.

(** [__init__]: the attribute stores and node set-up of the constructor,
    then the collision hook and the initial side.  [e] holds what a
    sub-class constructor stored before calling this one. *)
Definition constructed (e : E)
    (tilt intendedDistance shoulderSideDistance height : R)
    (adjustmentSpeed sideSwitchSpeed initialShoulderSide : R)
    (ownerNodePath camera : Handle) : outcome (rig E) unit :=
  let cameraBase := newNodePath (Created "third-person camera-base") in
  let cameraHolder := newNodePath (Created "third-person camera-holder") in
  let self :=
    mkRig (Some camera) (Some ownerNodePath) shoulderSideDistance
          intendedDistance height tilt sideSwitchSpeed adjustmentSpeed
          (Some (setP (setZ cameraBase height) tilt))
          (setY cameraHolder (- intendedDistance))
          SIMPLE_THIRD_PERSON_CAMERA_SIDE_CENTRE e in
  (call (AttachNewNode (Borrowed ownerNodePath) (node cameraBase)) ;;
   call (AttachNewNode (node cameraBase) (node cameraHolder)) ;;
   call (ReparentTo (Borrowed camera) (node cameraHolder)) ;;
   setupCollision ;;
   assign (set_currentSide SIMPLE_THIRD_PERSON_CAMERA_SIDE_CENTRE) ;;
   setCurrentSide initialShoulderSide) self.

(** The calls a host makes on a rig after constructing it. *)
Inductive rig_call : Type :=
| CallUpdate (dt : R) (sceneRoot : SceneRoot)
| CallSetCurrentSide (side : R).

Definition perform (c : rig_call) : method (rig E) unit :=
  match c with
  | CallUpdate dt sceneRoot => update dt sceneRoot
  | CallSetCurrentSide side => setCurrentSide side
  end.

(** A sequence of calls; an exception ends it. *)
Fixpoint perform_all (cs : list rig_call) : method (rig E) unit :=
  match cs with
  | [] => ret tt
  | c :: cs' => perform c ;; perform_all cs'
  end.
End Rig.

(* ===================================================================== *)
(** * The sub-class with Panda's collision system *)

(** The attributes [SimpleThirdPersonCameraPandaCollision] adds. *)
Record PandaCollision : Type := mkPandaCollision {
  colliderRadius : R;
  traverser : option CollisionTraverser;
  collisionQueue : option CollisionHandlerQueue;
  colliderNode : option CollisionNode;
  collider : option NodePath
}.

Definition set_traverser (v : option CollisionTraverser) (p : PandaCollision) :=
  mkPandaCollision (colliderRadius p) v (collisionQueue p) (colliderNode p) (collider p).
Definition set_collisionQueue (v : option CollisionHandlerQueue) (p : PandaCollision) :=
  mkPandaCollision (colliderRadius p) (traverser p) v (colliderNode p) (collider p).
Definition set_colliderNode (v : option CollisionNode) (p : PandaCollision) :=
  mkPandaCollision (colliderRadius p) (traverser p) (collisionQueue p) v (collider p).
Definition set_collider (v : option NodePath) (p : PandaCollision) :=
  mkPandaCollision (colliderRadius p) (traverser p) (collisionQueue p) (colliderNode p) v.

Definition panda_rig : Type := rig PandaCollision.

(** [self.attr] and [self.attr = v] for the attributes of the sub-class *)
Definition getattr_ext {A} (f : PandaCollision -> A) : method panda_rig A :=
  getattr (fun s => f (ext s)).
Definition assign_ext (f : PandaCollision -> PandaCollision) : method panda_rig unit :=
  assign (fun s => set_ext (f (ext s)) s).

(** The four segments of the collider, as [setupCollision] places them. *)
Definition camera_segments (colliderRadius intendedDistance : R) : list CollisionSegment :=
  [ Segment (- colliderRadius) (- colliderRadius) 0
            (- colliderRadius) (- intendedDistance) 0;
    Segment colliderRadius (- colliderRadius) 0
            colliderRadius (- intendedDistance) 0;
    Segment 0 (- colliderRadius) (- colliderRadius)
            0 (- intendedDistance) (- colliderRadius);
    Segment 0 (- colliderRadius) colliderRadius
            0 (- intendedDistance) colliderRadius ].

(** The four segments pass the constructor's assertion: [setupCollision]
    gets its segments, and does not stop at the first of them with an
    [AssertionError]. *)
Definition segments_accepted (colliderRadius intendedDistance : R) : Prop :=
  Forall segment_accepted (camera_segments colliderRadius intendedDistance).

(** [CollisionNode(name)] before any solid is added; the two masks are
    overwritten by [setupCollision] before the node is used. *)
Definition newCollisionNode : CollisionNode := mkCollisionNode [] 0 0.

(** [setupCollision], on a rig whose four segments the constructor of
    [CollisionSegment] accepts, see [segments_accepted]. *)
Definition panda_setupCollision : method panda_rig unit :=
  assign_ext (set_traverser (Some (mkTraverser []))) ;;
  assign_ext (set_collisionQueue (Some mkQueue)) ;;
  radius <- getattr_ext colliderRadius ;;
  distance <- getattr (@intendedDistance PandaCollision) ;;
  let cnode :=
    fold_left (fun cn seg => addSolid seg cn)
              (camera_segments radius distance) newCollisionNode in
  let cnode := setFromCollideMask 1 (setIntoCollideMask 0 cnode) in
  assign_ext (set_colliderNode (Some cnode)) ;;
  base <- getattr (@cameraBase PandaCollision) ;;
  base <- deref base ;;
  let np := newNodePath (Created "camera collider") in
  call (AttachNewNode (node base) (node np)) ;;
  assign_ext (set_collider (Some np)) ;;
  trav <- getattr_ext traverser ;;
  trav <- deref trav ;;
  call (AddCollider (node np)) ;;
  assign_ext (set_traverser (Some (mkTraverser (colliders trav ++ [node np])))).

(** [collisionQueue.getNumEntries()] and [collisionQueue.getEntry(n)] on the
    entries a traversal left in the queue *)
Definition getNumEntries (q : list CollisionEntry) : nat := List.length q.

Definition getEntry {S} (q : list CollisionEntry) (n : nat) : method S CollisionEntry :=
  match nth_error q n with
  | Some entry => ret entry
  | None => raise AssertionError
  end.

Definition panda_getNearestCollision (sceneRoot : SceneRoot) : method panda_rig pyval :=
  trav <- getattr_ext traverser ;;
  _ <- deref trav ;;
  let found := traverse sceneRoot in
  queue <- getattr_ext collisionQueue ;;
  _ <- deref queue ;;
  if (0 <? getNumEntries found)%nat then
    let sorted := sortEntries found in
    entry <- getEntry sorted 0 ;;
    let pos := getSurfacePoint entry sceneRoot in
    base <- getattr (@cameraBase PandaCollision) ;;
    _ <- deref base ;;
    let diff := vsub (getPos sceneRoot) pos in
    ret (PyNum (vlength diff))
  else
    distance <- getattr (@intendedDistance PandaCollision) ;;
    ret (PyNum distance).

Definition remove_collider (n : NodeRef) (t : CollisionTraverser) : CollisionTraverser :=
  mkTraverser
    (filter (fun m => match m, n with
                      | Created a, Created b => negb (String.eqb a b)
                      | Borrowed a, Borrowed b => negb (Nat.eqb a b)
                      | _, _ => true
                      end) (colliders t)).

Definition panda_cleanupCollision : method panda_rig unit :=
  col <- getattr_ext collider ;;
  match col with
  | Some np =>
      trav <- getattr_ext traverser ;;
      trav <- deref trav ;;
      call (RemoveCollider (node np)) ;;
      assign_ext (set_traverser (Some (remove_collider (node np) trav))) ;;
      call (RemoveNode (node np)) ;;
      assign_ext (set_collider None) ;;
      assign_ext (set_colliderNode None)
  | None => ret tt
  end ;;
  assign_ext (set_traverser None) ;;
  assign_ext (set_collisionQueue None).

#[export] Instance SimpleThirdPersonCameraPandaCollision : CollisionHooks PandaCollision := {
  setupCollision := panda_setupCollision;
  getNearestCollision := panda_getNearestCollision;
  cleanupCollision := panda_cleanupCollision
}.

(** [SimpleThirdPersonCameraPandaCollision(...)]: the sub-class constructor
    stores [colliderRadius], then runs the constructor of the base class. *)
Definition panda_constructed
    (tilt intendedDistance shoulderSideDistance height : R)
    (adjustmentSpeed sideSwitchSpeed initialShoulderSide : R)
    (ownerNodePath camera : Handle) (colliderRadius : R) : outcome panda_rig unit :=
  constructed (mkPandaCollision colliderRadius None None None None)
              tilt intendedDistance shoulderSideDistance height
              adjustmentSpeed sideSwitchSpeed initialShoulderSide
              ownerNodePath camera.

(** The base class on its own. *)
Definition base_rig : Type := rig unit.

(* ===================================================================== *)
(** * Vocabulary for stating what the methods do *)

(** [clamp(x, lo, hi)], as the specification writes the blend factor *)
Definition clamp (x lo hi : R) : R := Rmax lo (Rmin x hi).

(** [targetY] after the comparison with the probe's answer *)
Definition nearer (intended d : R) : R :=
  if Rgt_dec intended d then d else intended.

(** [offsetVal] after the "> 1" section *)
Definition capped (offsetVal : R) : R :=
  if Rgt_dec offsetVal 1 then 1 else offsetVal.

Section UpdateVocabulary.
Context {E : Type} {hooks : CollisionHooks E}.

(** The probe answers with the number [d] and leaves the rig alone. *)
Definition probe_returns (sceneRoot : SceneRoot) (s : rig E) (d : R) : Prop :=
  getNearestCollision sceneRoot s = Returns (PyNum d) s [].

(** The probe never changes the rig nor edits the scene, whatever it
    answers. *)
Definition pure_query : Prop :=
  forall sceneRoot (s : rig E),
    final (getNearestCollision sceneRoot s) = s /\
    logged (getNearestCollision sceneRoot s) = [].

(** [currentDistance], as [update] reads it *)
Definition holderDistance (s : rig E) : R := Rabs (getY (cameraHolder s)).

(** the distance [update] is heading for *)
Definition targetDistance (s : rig E) (d : R) : R :=
  nearer (intendedDistance s) d.

Definition holder_after (s : rig E) (dt d : R) : NodePath :=
  let currentDistance := holderDistance s in
  let yDiff := targetDistance s d - currentDistance in
  setY (cameraHolder s)
       (- currentDistance - yDiff * capped (adjustmentSpeed s * dt)).

(** [targetLateral] and the anchor's lateral offset *)
Definition targetLateral (s : rig E) : R :=
  shoulderSideDistance s * currentSide s.

Definition base_after (s : rig E) (base : NodePath) (dt : R) : NodePath :=
  let sideDiff := targetLateral s - getX base in
  setX base
       (if Rlt_dec (Rabs sideDiff) 0.001
        then targetLateral s
        else getX base + sideDiff * capped (sideSwitchSpeed s * dt)).

(** the rig after an [update] that ran to its end *)
Definition tick_result (s : rig E) (base : NodePath) (dt d : R) : rig E :=
  set_cameraBase (Some (base_after s base dt))
                 (set_cameraHolder (holder_after s dt d) s).

(** One completed tick, labelled with the elapsed time and with what the
    probe answered. *)
Inductive tick : rig E -> R * R -> rig E -> Prop :=
| tick_intro s dt sceneRoot d s' ops :
    probe_returns sceneRoot s d ->
    update dt sceneRoot s = Returns tt s' ops ->
    tick s (dt, d) s'.

(** A run of completed ticks. *)
Inductive ticks : rig E -> list (R * R) -> rig E -> Prop :=
| ticks_nil s : ticks s [] s
| ticks_cons s l s1 labels s2 :
    tick s l s1 -> ticks s1 labels s2 -> ticks s (l :: labels) s2.

(** The side last asked for by a sequence of calls. *)
Fixpoint last_side (cs : list rig_call) (side : R) : R :=
  match cs with
  | [] => side
  | CallUpdate _ _ :: cs' => last_side cs' side
  | CallSetCurrentSide side' :: cs' => last_side cs' side'
  end.
End UpdateVocabulary.


Definition is_side (side : R) : Prop :=
  side = SIMPLE_THIRD_PERSON_CAMERA_SIDE_LEFT \/
  side = SIMPLE_THIRD_PERSON_CAMERA_SIDE_CENTRE \/
  side = SIMPLE_THIRD_PERSON_CAMERA_SIDE_RIGHT.

(** A call that asks for one of the three sides, or an [update]. *)
Definition call_with_side (c : rig_call) : Prop :=
  match c with
  | CallUpdate _ _ => True
  | CallSetCurrentSide side => is_side side
  end.

(** What one [cleanup] logs for a rig: the camera is detached, the collider
    is taken off its traverser and removed, the base is removed; a reference
    that is already [None] contributes nothing. *)
Definition detach_ops (cam : option Handle) : list SceneOp :=
  match cam with
  | Some c => [DetachNode (Borrowed c)]
  | None => []
  end.

Definition collider_ops (col : option NodePath) : list SceneOp :=
  match col with
  | Some np => [RemoveCollider (node np); RemoveNode (node np)]
  | None => []
  end.

Definition base_ops (base : option NodePath) : list SceneOp :=
  match base with
  | Some b => [RemoveNode (node b)]
  | None => []
  end.

(* ===================================================================== *)
(** * The rig of the demonstration program *)

(** [SimpleThirdPersonCameraPandaCollision(-5, 5, 0.5, 2.0, 7.0, 10.0,
    SIMPLE_THIRD_PERSON_CAMERA_SIDE_LEFT, manipulator, camera,
    colliderRadius = 0.5)], with the owner as handle 0 and the camera as
    handle 1. *)
Definition tester_constructed : outcome panda_rig unit :=
  panda_constructed (-5) 5 0.5 2 7 10 SIMPLE_THIRD_PERSON_CAMERA_SIDE_LEFT
                    0%nat 1%nat 0.5.

Definition tester_rig : panda_rig := final tester_constructed.

(** The same parameters given to the base class itself. *)
Definition plain_rig : base_rig :=
  final (constructed tt (-5) 5 0.5 2 7 10 SIMPLE_THIRD_PERSON_CAMERA_SIDE_LEFT
                     0%nat 1%nat).

(** A scene in which nothing is hit.  In this scene and the next two the
    frame of the root is the frame of the anchor. *)
Definition open_scene : SceneRoot := mkScene [] (fun p => p).

(** A wall met at its far end by the first segment of a collider of radius
    1 that reaches back by 5. *)
Definition far_wall_scene : SceneRoot :=
  mkScene [ mkEntry (Segment (-1) (-1) 0 (-1) (-5) 0) (mkVec3 (-1) (-5) 0) ]
          (fun p => p).

(** A wall met by the first segment of the demonstration rig 1.2 behind
    the anchor, which puts the hit 1.3 away from it. *)
Definition near_wall_scene : SceneRoot :=
  mkScene [ mkEntry (Segment (-0.5) (-0.5) 0 (-0.5) (-5) 0) (mkVec3 (-0.5) (-1.2) 0) ]
          (fun p => p).

(** The anchor of the demonstration rig as constructed, and the rig one and
    two sixtieths of a second after the near wall has appeared. *)
Definition tester_base : NodePath :=
  mkNodePath (Created "third-person camera-base") 0 0 2 (-5).



(* ===================================================================== *)
(** * Vocabulary for the probe *)

(** How far the intersection lies from the anchor, as
    [getNearestCollision] measures it in the frame of the scene root. *)
Definition anchorDistance (sceneRoot : SceneRoot) (e : CollisionEntry) : R :=
  vlength (vsub (getPos sceneRoot) (getSurfacePoint e sceneRoot)).

(** The point [p] lies on the segment. *)
Definition on_segment (seg : CollisionSegment) (p : Vec3) : Prop :=
  exists t : R,
    0 <= t <= 1 /\
    p = mkVec3 (vx (pointA seg) + t * (vx (pointB seg) - vx (pointA seg)))
               (vy (pointA seg) + t * (vy (pointB seg) - vy (pointA seg)))
               (vz (pointA seg) + t * (vz (pointB seg) - vz (pointA seg))).

(** An intersection of one of the rig's four segments, at a point of that
    segment. *)
Definition hit_on_collider (s : panda_rig) (e : CollisionEntry) : Prop :=
  In (fromSolid e) (camera_segments (colliderRadius (ext s)) (intendedDistance s)) /\
  on_segment (fromSolid e) (surfacePoint e).

(** The anchor's frame is placed in the scene without scaling or shearing. *)
Definition isometry (f : Vec3 -> Vec3) : Prop :=
  forall p q, vlength (vsub (f p) (f q)) = vlength (vsub p q).

(** The head of a queue has the least key of the queue. *)
Definition head_least (q : list CollisionEntry) : Prop :=
  match q with
  | [] => True
  | h :: _ => forall x, In x q -> originDistance2 h <= originDistance2 x
  end.

(** A rig without tilt or height, so that its anchor sits on the owner, with
    the collider radius left at its default, 1; the owner stands at the scene
    root. *)
Definition level_rig : panda_rig :=
  final (panda_constructed 0 5 0.5 0 7 10 SIMPLE_THIRD_PERSON_CAMERA_SIDE_LEFT
                           0%nat 1%nat 1).

Definition level_base : NodePath :=
  mkNodePath (Created "third-person camera-base") 0 0 0 0.

(* ===================================================================== *)
(** * Vocabulary for whole lives of a rig *)

(** The anchor's lateral offset; a rig without its base has none to read. *)
Definition lateralOffset {E} (s : rig E) : R :=
  match cameraBase s with
  | Some base => getX base
  | None => 0
  end.

(** Ticks that all come with the same elapsed time. *)
Definition constant_dt (dt : R) (labels : list (R * R)) : Prop :=
  Forall (fun l => fst l = dt) labels.

(** The calls a host makes on a rig, [cleanup] included. *)
Inductive host_call : Type :=
| HostUpdate (dt : R) (sceneRoot : SceneRoot)
| HostSetCurrentSide (side : R)
| HostCleanup.

Section Host.
Context {E : Type} {hooks : CollisionHooks E}.

Definition host_perform (c : host_call) : method (rig E) unit :=
  match c with
  | HostUpdate dt sceneRoot => update dt sceneRoot
  | HostSetCurrentSide side => setCurrentSide side
  | HostCleanup => cleanup
  end.

(** A sequence of calls; an exception ends it. *)
Fixpoint host_perform_all (cs : list host_call) : method (rig E) unit :=
  match cs with
  | [] => ret tt
  | c :: cs' => host_perform c ;; host_perform_all cs'
  end.
End Host.

Definition is_cleanup (c : host_call) : Prop :=
  match c with
  | HostCleanup => True
  | _ => False
  end.

(** A rig of the sub-class with everything the constructor made in place,
    and one with every reference dropped. *)
Definition live (s : panda_rig) : Prop :=
  cameraBase s <> None /\
  traverser (ext s) <> None /\
  collisionQueue (ext s) <> None /\
  collider (ext s) <> None.

Definition released (s : panda_rig) : Prop :=
  camera s = None /\
  ownerNodePath s = None /\
  cameraBase s = None /\
  traverser (ext s) = None /\
  collisionQueue (ext s) = None /\
  collider (ext s) = None.

(* ===================================================================== *)
(** * The demonstration program *)

(** Two scenes that record the same two intersections of the demonstration
    rig in opposite order. *)
Definition two_walls_scene : SceneRoot :=
  mkScene [ mkEntry (Segment 0.5 (-0.5) 0 0.5 (-5) 0) (mkVec3 0.5 (-3) 0);
            mkEntry (Segment (-0.5) (-0.5) 0 (-0.5) (-5) 0) (mkVec3 (-0.5) (-1.2) 0) ]
          (fun p => p).

Definition two_walls_scene_reversed : SceneRoot :=
  mkScene [ mkEntry (Segment (-0.5) (-0.5) 0 (-0.5) (-5) 0) (mkVec3 (-0.5) (-1.2) 0);
            mkEntry (Segment 0.5 (-0.5) 0 0.5 (-5) 0) (mkVec3 0.5 (-3) 0) ]
          (fun p => p).

(** Vector arithmetic of the collaborator: [a + b], [v * k], [-v] and
    [v.normalize()], which leaves a vector without length at zero. *)
Definition vadd (a b : Vec3) : Vec3 :=
  mkVec3 (vx a + vx b) (vy a + vy b) (vz a + vz b).

Definition vscale (v : Vec3) (k : R) : Vec3 :=
  mkVec3 (vx v * k) (vy v * k) (vz v * k).

Definition vneg (v : Vec3) : Vec3 := mkVec3 (- vx v) (- vy v) (- vz v).

Definition normalize (v : Vec3) : Vec3 :=
  if Req_dec_T (lengthSquared v) 0
  then mkVec3 0 0 0
  else vscale v (/ sqrt (lengthSquared v)).

(** What [manipulator.getQuat(sceneRoot)] answers in one call: the two axes
    the player moves along. *)
Record Quat : Type := mkQuat { getForward : Vec3; getRight : Vec3 }.

(** The handler that keeps the player out of walls. *)
Record CollisionHandlerPusher : Type := mkPusher { pushed : list NodeRef }.

(** A heading as a node gives it back after a transform was composed into
    it: the angle in (-180, 180] that differs from [h] by whole turns. *)
Definition wrapH (h : R) : R := h + 360 * IZR (up ((180 - h) / 360) - 1).

(** The controller's own [update] and [cleanup], as the player calls them. *)
Definition controller_update : R -> SceneRoot -> method panda_rig unit := update.
Definition controller_cleanup : method panda_rig unit := cleanup.

Module Player.

(** The attributes of a [Player] that its methods read or write after the
    constructor: the position and heading of its [manipulator], its
    [collider], its movement variables and the camera controller.  (The
    loaded model and the collision node behind the collider are not touched
    again.) *)
Record state : Type := mkPlayer {
  manipulatorPos : Vec3;
  manipulatorH : R;
  collider : NodePath;
  velocity : Vec3;
  acceleration : R;
  maxSpeed : R;
  friction : R;
  turnSpeed : R;
  cameraController : option panda_rig
}.

Definition set_manipulatorPos (v : Vec3) (p : state) : state :=
  mkPlayer v (manipulatorH p) (collider p) (velocity p) (acceleration p)
           (maxSpeed p) (friction p) (turnSpeed p) (cameraController p).
Definition set_manipulatorH (v : R) (p : state) : state :=
  mkPlayer (manipulatorPos p) v (collider p) (velocity p) (acceleration p)
           (maxSpeed p) (friction p) (turnSpeed p) (cameraController p).
Definition set_velocity (v : Vec3) (p : state) : state :=
  mkPlayer (manipulatorPos p) (manipulatorH p) (collider p) v (acceleration p)
           (maxSpeed p) (friction p) (turnSpeed p) (cameraController p).
Definition set_cameraController (v : option panda_rig) (p : state) : state :=
  mkPlayer (manipulatorPos p) (manipulatorH p) (collider p) (velocity p)
           (acceleration p) (maxSpeed p) (friction p) (turnSpeed p) v.

(** [self.cameraController.m(...)]: a method of the controller run on the
    player's controller; without a controller the attribute access raises. *)
Definition on_controller {A} (m : method panda_rig A) : method state A :=
  fun p =>
    match cameraController p with
    | None => Raises AttributeError p []
    | Some c =>
        match m c with
        | Returns a c' ops => Returns a (set_cameraController (Some c') p) ops
        | Raises e c' ops => Raises e (set_cameraController (Some c') p) ops
        end
    end.

Definition switchCameraSide : method state unit :=
  on_controller
    (side <- getattr (@currentSide PandaCollision) ;;
     if Req_dec_T side SIMPLE_THIRD_PERSON_CAMERA_SIDE_LEFT then
       setCurrentSide SIMPLE_THIRD_PERSON_CAMERA_SIDE_RIGHT
     else if Req_dec_T side SIMPLE_THIRD_PERSON_CAMERA_SIDE_RIGHT then
       setCurrentSide SIMPLE_THIRD_PERSON_CAMERA_SIDE_CENTRE
     else
       setCurrentSide SIMPLE_THIRD_PERSON_CAMERA_SIDE_LEFT).

(** [self.velocity += v] and [self.velocity -= v] *)
Definition accelerate (v : Vec3) : method state unit :=
  assign (fun p => set_velocity (vadd (velocity p) v) p).
Definition decelerate (v : Vec3) : method state unit :=
  assign (fun p => set_velocity (vadd (velocity p) (vneg v)) p).

(** [self.manipulator.setH(self.manipulator, angle)]: a turn by [angle]
    from the present heading.  The turn is composed into the transform of
    the node, which gives its heading back within a turn, see [wrapH]. *)
Definition turn (angle : R) : method state unit :=
  assign (fun p => set_manipulatorH (wrapH (manipulatorH p + angle)) p).

Definition when (b : bool) (m : method state unit) : method state unit :=
  if b then m else ret tt.

Definition update (dt : R) (keyMap : string -> bool) (orientationQuat : Quat)
    (sceneRoot : SceneRoot) : method state unit :=
  let forward := getForward orientationQuat in
  let right := getRight orientationQuat in
  acc <- getattr acceleration ;;
  when (keyMap "up"%string) (accelerate (vscale (vscale forward acc) dt)) ;;
  when (keyMap "down"%string) (decelerate (vscale (vscale forward acc) dt)) ;;
  when (keyMap "right"%string) (accelerate (vscale (vscale right acc) dt)) ;;
  when (keyMap "left"%string) (decelerate (vscale (vscale right acc) dt)) ;;
  let walking :=
    (keyMap "up"%string || keyMap "down"%string || keyMap "right"%string || keyMap "left"%string)%bool in
  turnSpeed <- getattr turnSpeed ;;
  when (keyMap "turnRight"%string) (turn (- turnSpeed * dt)) ;;
  when (keyMap "turnLeft"%string) (turn (turnSpeed * dt)) ;;
  v <- getattr velocity ;;
  let speed := vlength v in
  top <- getattr maxSpeed ;;
  let fast := if Rgt_dec speed top then true else false in
  let speed := if fast then top else speed in
  when fast (assign (set_velocity (vscale (normalize v) speed))) ;;
  v <- getattr velocity ;;
  pos <- getattr manipulatorPos ;;
  assign (set_manipulatorPos (vadd pos (vscale v dt))) ;;
  fr <- getattr friction ;;
  when (negb walking)
       (let frictionVal := fr * dt in
        if Rgt_dec frictionVal speed then
          assign (set_velocity (mkVec3 0 0 0))
        else
          v <- getattr velocity ;;
          let frictionVec := vscale (normalize (vneg v)) frictionVal in
          accelerate frictionVec) ;;
  on_controller (controller_update dt sceneRoot).

Definition cleanup : method state unit :=
  controller <- getattr cameraController ;;
  match controller with
  | Some _ => on_controller controller_cleanup ;; assign (set_cameraController None)
  | None => ret tt
  end.

End Player.

(** The game class around the player. *)
Module Game.

(** The attributes of a [Game] that its methods read or write after the
    constructor.  The key map is the dictionary of the constructor, read by
    key; the text is what [camPosText] shows. *)
Record state : Type := mkGame {
  keyMap : string -> bool;
  player : option Player.state;
  pusher : option CollisionHandlerPusher;
  cTrav : option CollisionTraverser;
  camPosText : string
}.

Definition set_keyMap (v : string -> bool) (g : state) : state :=
  mkGame v (player g) (pusher g) (cTrav g) (camPosText g).
Definition set_player (v : option Player.state) (g : state) : state :=
  mkGame (keyMap g) v (pusher g) (cTrav g) (camPosText g).
Definition set_pusher (v : option CollisionHandlerPusher) (g : state) : state :=
  mkGame (keyMap g) (player g) v (cTrav g) (camPosText g).
Definition set_cTrav (v : option CollisionTraverser) (g : state) : state :=
  mkGame (keyMap g) (player g) (pusher g) v (camPosText g).
Definition setText (v : string) (g : state) : state :=
  mkGame (keyMap g) (player g) (pusher g) (cTrav g) v.

(** [self.player.m(...)]: a method of the player run on the game's player;
    without a player the attribute access raises. *)
Definition on_player {A} (m : method Player.state A) : method state A :=
  fun g =>
    match player g with
    | None => Raises AttributeError g []
    | Some p =>
        match m p with
        | Returns a p' ops => Returns a (set_player (Some p') g) ops
        | Raises e p' ops => Raises e (set_player (Some p') g) ops
        end
    end.

Definition text_left : string := "Camera-position: Left".
Definition text_right : string := "Camera-position: Right".
Definition text_centre : string := "Camera-position: Centre".
Definition text_unknown : string :=
  "Camera-position: Er... Unknown! (Unrecognised value for 'currentSide')".

Definition updateCamPosText : method state unit :=
  side <- on_player (Player.on_controller (getattr (@currentSide PandaCollision))) ;;
  if Req_dec_T side SIMPLE_THIRD_PERSON_CAMERA_SIDE_LEFT then
    assign (setText text_left)
  else if Req_dec_T side SIMPLE_THIRD_PERSON_CAMERA_SIDE_RIGHT then
    assign (setText text_right)
  else if Req_dec_T side SIMPLE_THIRD_PERSON_CAMERA_SIDE_CENTRE then
    assign (setText text_centre)
  else
    assign (setText text_unknown).

Definition updateKeyMap (controlName : string) (controlState : bool) : method state unit :=
  assign (fun g =>
            set_keyMap (fun key => if String.eqb key controlName
                                   then controlState else keyMap g key) g).

Definition switchCameraSide : method state unit :=
  on_player Player.switchCameraSide ;;
  updateCamPosText.

(** [update(task)]: [dt] is what the clock answers, [orientationQuat] and
    [render] what the scene answers in this frame. *)
Definition update (dt : R) (orientationQuat : Quat) (render : SceneRoot) : method state unit :=
  keys <- getattr keyMap ;;
  on_player (Player.update dt keys orientationQuat render).

Definition cleanup : method state unit :=
  push <- getattr pusher ;;
  match push with
  | Some _ =>
      p <- getattr player ;;
      p <- deref p ;;
      call (RemoveCollider (node (Player.collider p))) ;;
      assign (set_pusher None)
  | None => ret tt
  end ;;
  trav <- getattr cTrav ;;
  match trav with
  | Some _ =>
      p <- getattr player ;;
      p <- deref p ;;
      call (RemoveCollider (node (Player.collider p))) ;;
      assign (set_cTrav None)
  | None => ret tt
  end ;;
  pl <- getattr player ;;
  match pl with
  | Some _ => on_player Player.cleanup ;; assign (set_player None)
  | None => ret tt
  end.

End Game.

(** The player and the game of the demonstration program as their
    constructors leave them: the player at rest at the root, no key held,
    the text showing the initial side. *)
Definition tester_player : Player.state :=
  Player.mkPlayer origin 0 (setZ (newNodePath (Created "player collider")) 1)
                  (mkVec3 0 0 0) 300 15 50 200 (Some tester_rig).

Definition tester_game : Game.state :=
  Game.mkGame (fun _ => false) (Some tester_player)
              (Some (mkPusher [Created "player collider"]))
              (Some (mkTraverser [Created "player collider"]))
              Game.text_left.

(** An orientation that looks along the Y axis of the root. *)
Definition facing_forward : Quat := mkQuat (mkVec3 0 1 0) (mkVec3 1 0 0).

(* ===================================================================== *)
(** * Vocabulary for the player's movement *)

(** The velocity after the four movement keys have been looked at. *)
Definition key_push (p : Player.state) (dt : R) (keyMap : string -> bool)
    (orientationQuat : Quat) : Vec3 :=
  let ahead := vscale (vscale (getForward orientationQuat) (Player.acceleration p)) dt in
  let aside := vscale (vscale (getRight orientationQuat) (Player.acceleration p)) dt in
  let v := Player.velocity p in
  let v := if keyMap "up"%string then vadd v ahead else v in
  let v := if keyMap "down"%string then vadd v (vneg ahead) else v in
  let v := if keyMap "right"%string then vadd v aside else v in
  if keyMap "left"%string then vadd v (vneg aside) else v.

Definition walking (keyMap : string -> bool) : bool :=
  (keyMap "up"%string || keyMap "down"%string
   || keyMap "right"%string || keyMap "left"%string)%bool.

(** The heading after the two turn keys have been looked at. *)
Definition turned (p : Player.state) (dt : R) (keyMap : string -> bool) : R :=
  let h := Player.manipulatorH p in
  let h := if keyMap "turnRight"%string
           then wrapH (h + - Player.turnSpeed p * dt) else h in
  if keyMap "turnLeft"%string then wrapH (h + Player.turnSpeed p * dt) else h.

(** The velocity and the [speed] variable after the speed limit. *)
Definition speed_limited (v : Vec3) (top : R) : Vec3 :=
  if Rgt_dec (vlength v) top then vscale (normalize v) top else v.

Definition limited_speed (v : Vec3) (top : R) : R :=
  if Rgt_dec (vlength v) top then top else vlength v.

(** The velocity after friction. *)
Definition slowed (v : Vec3) (speed frictionVal : R) : Vec3 :=
  if Rgt_dec frictionVal speed
  then mkVec3 0 0 0
  else vadd v (vscale (normalize (vneg v)) frictionVal).

(** The player when [Player.update] reaches its call of the controller. *)
Definition moved (p : Player.state) (dt : R) (keyMap : string -> bool)
    (orientationQuat : Quat) : Player.state :=
  let v := key_push p dt keyMap orientationQuat in
  let limited := speed_limited v (Player.maxSpeed p) in
  let speed := limited_speed v (Player.maxSpeed p) in
  let final_velocity :=
    if walking keyMap then limited
    else slowed limited speed (Player.friction p * dt) in
  Player.mkPlayer (vadd (Player.manipulatorPos p) (vscale limited dt))
                  (turned p dt keyMap) (Player.collider p) final_velocity
                  (Player.acceleration p) (Player.maxSpeed p) (Player.friction p)
                  (Player.turnSpeed p) (Player.cameraController p).

(** The side [switchCameraSide] moves on to. *)
Definition next_side (side : R) : R :=
  if Req_dec_T side SIMPLE_THIRD_PERSON_CAMERA_SIDE_LEFT then
    SIMPLE_THIRD_PERSON_CAMERA_SIDE_RIGHT
  else if Req_dec_T side SIMPLE_THIRD_PERSON_CAMERA_SIDE_RIGHT then
    SIMPLE_THIRD_PERSON_CAMERA_SIDE_CENTRE
  else
    SIMPLE_THIRD_PERSON_CAMERA_SIDE_LEFT.

(** The demonstration rig once its [cleanup] has run. *)
Definition tester_rig_released : panda_rig :=
  mkRig None None 0.5 5 2 (-5) 10 7 None
        (mkNodePath (Created "third-person camera-holder") 0 (-5) 0 0)
        SIMPLE_THIRD_PERSON_CAMERA_SIDE_LEFT
        (mkPandaCollision 0.5 None None None None).

(* ===================================================================== *)
(** * The distance blend in the arithmetic of the program *)

(** The numbers of the program are not real numbers.  A Python float is an
    IEEE 754 binary64 number, and a node keeps each coordinate of its
    transform in the precision Panda3D was built with: binary32 in the
    default build, binary64 in a double-precision build.  This module
    repeats the lines of [update] that move the holder in that arithmetic,
    on the floating-point numbers of the standard library's specification.
    It shows where a statement about the formula stops being a statement
    about the program: a step too small for the last place of the distance
    rounds away. *)
Module Binary.

Definition float : Type := spec_float.

(** [m * 2^e] as a Python float *)
Definition of_Z (m e : Z) : float := binary_normalize 53 1024 m e false.

(** Python's [x + y], [x - y], [x * y], [x / y], [x > y], [-x] and
    [abs(x)] on floats *)
Definition add : float -> float -> float := SFadd 53 1024.
Definition sub : float -> float -> float := SFsub 53 1024.
Definition mul : float -> float -> float := SFmul 53 1024.
Definition gt (x y : float) : bool := SFltb y x.
Definition neg : float -> float := SFopp.
Definition abs : float -> float := SFabs.

(** The precision a node keeps its coordinates in. *)
Inductive StdFloat : Type := Single | Double.

(** What a Python float becomes in a number format: the nearest number of
    the format, ties to even. *)
Definition rounded (prec emax : Z) (x : float) : float :=
  match x with
  | S754_finite s m e => binary_normalize prec emax (cond_Zopp s (Zpos m)) e s
  | _ => x
  end.

(** [np.setY(y)] followed by [np.getY()]: the coordinate as the node keeps
    it, read back as a Python float. *)
Definition stored (precision : StdFloat) (y : float) : float :=
  match precision with
  | Single => rounded 53 1024 (rounded 24 128 y)
  | Double => y
  end.

(** The lines of [update] from [currentDistance = abs(...)] to
    [self.cameraHolder.setY(...)]: the holder's Y as the node keeps it after
    the call, from the Y it kept before, when the probe answered
    [collisionDistance]. *)
Definition holder_after (precision : StdFloat)
    (intendedDistance adjustmentSpeed dt collisionDistance holderY : float) : float :=
  let currentDistance := abs holderY in
  let targetY := intendedDistance in
  let targetY := if gt targetY collisionDistance then collisionDistance else targetY in
  let yDiff := sub targetY currentDistance in
  let offsetVal := mul adjustmentSpeed dt in
  let offsetVal := if gt offsetVal (of_Z 1 0) then of_Z 1 0 else offsetVal in
  let offset := mul yDiff offsetVal in
  stored precision (sub (neg currentDistance) offset).




End Binary.

(** Brings a player written as a record back to one after a setter. *)
Ltac player_norm :=
  cbn [Player.manipulatorPos Player.manipulatorH Player.collider Player.velocity
       Player.acceleration Player.maxSpeed Player.friction Player.turnSpeed
       Player.cameraController Player.set_velocity Player.set_manipulatorPos
       Player.set_manipulatorH Player.set_cameraController].

(* ===================================================================== *)
(** * What one [update] does *)

Section UpdateFacts.
Context {E : Type} {hooks : CollisionHooks E}.

(** [update], once the probe has answered with a number: the holder is
    written first; the base is then read, which raises if [cleanup] has
    already dropped it. *)
Lemma update_unfold (s : rig E) (dt : R) (sceneRoot : SceneRoot) (d : R) :
  probe_returns sceneRoot s d ->
  update dt sceneRoot s =
    let s1 := set_cameraHolder (holder_after s dt d) s in
    match cameraBase s with
    | Some base => Returns tt (set_cameraBase (Some (base_after s base dt)) s1) []
    | None => Raises AttributeError s1 []
    end.
Proof.
  intros Hprobe. unfold probe_returns in Hprobe.
  unfold update, bind, getattr. rewrite Hprobe. cbn.
  unfold holder_after, base_after, targetDistance, targetLateral,
    nearer, capped, holderDistance.
  destruct (Rgt_dec (intendedDistance s) d); cbn;
    destruct (cameraBase s); reflexivity.
Qed.

(** A probe that answers [None] stops [update] before anything is
    written. *)
Lemma update_probe_none (s : rig E) (dt : R) (sceneRoot : SceneRoot) :
  getNearestCollision sceneRoot s = Returns PyNone s [] ->
  update dt sceneRoot s = Raises TypeError s [].
Proof.
  intros Hprobe. unfold update, bind, getattr. rewrite Hprobe. reflexivity.
Qed.

Lemma update_returns (s : rig E) (dt : R) (sceneRoot : SceneRoot) (d : R) (base : NodePath) :
  probe_returns sceneRoot s d ->
  cameraBase s = Some base ->
  update dt sceneRoot s =
    Returns tt (set_cameraBase (Some (base_after s base dt))
                               (set_cameraHolder (holder_after s dt d) s)) [].
Proof.
  intros Hprobe Hbase. rewrite (update_unfold dt Hprobe). cbn. rewrite Hbase.
  reflexivity.
Qed.

Lemma update_returned (s s' : rig E) (dt : R) (sceneRoot : SceneRoot) (d : R) ops :
  probe_returns sceneRoot s d ->
  update dt sceneRoot s = Returns tt s' ops ->
  exists base,
    cameraBase s = Some base /\
    s' = set_cameraBase (Some (base_after s base dt))
                        (set_cameraHolder (holder_after s dt d) s) /\
    ops = [].
Proof.
  intros Hprobe Hrun. rewrite (update_unfold dt Hprobe) in Hrun. cbn in Hrun.
  destruct (cameraBase s) as [base|]; [|discriminate].
  exists base. inversion Hrun. auto.
Qed.

(** The holder after [update], whether or not the base is still there. *)
Lemma update_holder (s : rig E) (dt : R) (sceneRoot : SceneRoot) (d : R) :
  probe_returns sceneRoot s d ->
  cameraHolder (final (update dt sceneRoot s)) = holder_after s dt d.
Proof.
  intros Hprobe. rewrite (update_unfold dt Hprobe). cbn.
  destruct (cameraBase s); reflexivity.
Qed.
End UpdateFacts.

(* ===================================================================== *)
(** * Arithmetic of the two blends *)

Lemma nearer_min (intended d : R) : nearer intended d = Rmin intended d.
Proof.
  unfold nearer, Rmin.
  destruct (Rgt_dec intended d), (Rle_dec intended d); lra.
Qed.

Lemma capped_min (v : R) : capped v = Rmin v 1.
Proof.
  unfold capped, Rmin. destruct (Rgt_dec v 1), (Rle_dec v 1); lra.
Qed.

Lemma capped_clamp (v : R) : 0 <= v -> capped v = clamp v 0 1.
Proof.
  intros Hv. rewrite capped_min. unfold clamp, Rmax, Rmin.
  destruct (Rle_dec v 1); destruct (Rle_dec 0 _); lra.
Qed.

Lemma capped_le_1 (v : R) : capped v <= 1.
Proof. unfold capped. destruct (Rgt_dec v 1); lra. Qed.

Lemma capped_nonneg (v : R) : 0 <= v -> 0 <= capped v.
Proof. unfold capped. destruct (Rgt_dec v 1); lra. Qed.

Lemma capped_pos (v : R) : 0 < v -> 0 < capped v.
Proof. unfold capped. destruct (Rgt_dec v 1); lra. Qed.


(* ===================================================================== *)
(** * The rig of the demonstration program, evaluated *)

Lemma tester_rig_eq :
  tester_rig =
    mkRig (Some 1%nat) (Some 0%nat) 0.5 5 2 (-5) 10 7
          (Some (mkNodePath (Created "third-person camera-base") 0 0 2 (-5)))
          (mkNodePath (Created "third-person camera-holder") 0 (-5) 0 0)
          SIMPLE_THIRD_PERSON_CAMERA_SIDE_LEFT
          (mkPandaCollision 0.5
             (Some (mkTraverser [Created "camera collider"]))
             (Some mkQueue)
             (Some (mkCollisionNode (camera_segments 0.5 5) 0 1))
             (Some (newNodePath (Created "camera collider")))).
Proof. reflexivity. Qed.

Lemma tester_probe_open :
  probe_returns open_scene tester_rig 5.
Proof. reflexivity. Qed.

(* ===================================================================== *)
(** * The distance blend *)

Section DistanceBlend.
Context {E : Type} {hooks : CollisionHooks E}.

(** C1.  With the probe answering [obstacleDistance], a non-negative [dt]
    and a non-negative adjustment speed, [update] writes
    [-(currentDistance + (min(intendedDistance, obstacleDistance) -
    currentDistance) * clamp(adjustmentSpeed * dt, 0, 1))] to the holder,
    [currentDistance] being the absolute value of the holder's offset at
    the start of the call; with the base in place the call returns. *)
Theorem update_writes_blended_distance
    (s : rig E) (dt : R) (sceneRoot : SceneRoot) (obstacleDistance : R) :
  probe_returns sceneRoot s obstacleDistance ->
  0 <= dt ->
  0 <= adjustmentSpeed s ->
  let currentDistance := Rabs (getY (cameraHolder s)) in
  let targetDistance := Rmin (intendedDistance s) obstacleDistance in
  let distanceBlend := clamp (adjustmentSpeed s * dt) 0 1 in
  getY (cameraHolder (final (update dt sceneRoot s))) =
    - (currentDistance + (targetDistance - currentDistance) * distanceBlend)
  /\ (cameraBase s <> None ->
      exists s', update dt sceneRoot s = Returns tt s' []).
Proof.
  intros Hprobe Hdt Hspeed. cbn zeta. split.
  - rewrite (update_holder dt Hprobe).
    unfold holder_after, targetDistance, holderDistance. cbn [getY setY].
    rewrite nearer_min, capped_clamp by nra. lra.
  - intros Hbase. destruct (cameraBase s) as [base|] eqn:Hb; [|congruence].
    eexists. apply (update_returns dt Hprobe Hb).
Qed.
End DistanceBlend.

Lemma update_writes_blended_distance_witness :
  getY (cameraHolder (final (update (1/60) open_scene tester_rig))) =
    - (Rabs (getY (cameraHolder tester_rig))
       + (Rmin (intendedDistance tester_rig) 5 - Rabs (getY (cameraHolder tester_rig)))
         * clamp (adjustmentSpeed tester_rig * (1/60)) 0 1).
Proof.
  apply (update_writes_blended_distance (s := tester_rig) (dt := 1/60)
           (sceneRoot := open_scene) (obstacleDistance := 5)).
  - reflexivity.
  - lra.
  - cbn. lra.
Defined.

(* ===================================================================== *)
(** * The base class without an override *)

(** The stub probe of the base class answers [None]. *)
Lemma base_probe_none (s : base_rig) (sceneRoot : SceneRoot) :
  getNearestCollision sceneRoot s = Returns PyNone s [].
Proof. reflexivity. Qed.

(** C2, as stated, fails: on the rig of the base class the call raises. *)
Lemma base_update_raises_example :
  update (1/60) open_scene plain_rig = Raises TypeError plain_rig [] /\
  ~ (exists s' ops, update (1/60) open_scene plain_rig = Returns tt s' ops).
Proof.
  assert (H : update (1/60) open_scene plain_rig = Raises TypeError plain_rig []).
  { apply update_probe_none, base_probe_none. }
  split; [exact H|]. intros (s' & ops & Hret). rewrite H in Hret. discriminate.
Qed.

(** C2, amended.  On a rig of the base class the stub probe answers [None]
    and [update] raises [TypeError] where it compares [intendedDistance] with
    that answer, before anything is written.  The distance target is
    [intendedDistance] for a probe that answers [intendedDistance], which is
    what the stub's comment asks of an override that finds no collision. *)
Theorem base_update_raises_unobstructed_needs_override :
  (forall (s : base_rig) (dt : R) (sceneRoot : SceneRoot),
      getNearestCollision sceneRoot s = Returns PyNone s [] /\
      update dt sceneRoot s = Raises TypeError s []) /\
  (forall (E : Type) (hooks : CollisionHooks E)
          (s : rig E) (dt : R) (sceneRoot : SceneRoot),
      probe_returns sceneRoot s (intendedDistance s) ->
      targetDistance s (intendedDistance s) = intendedDistance s /\
      getY (cameraHolder (final (update dt sceneRoot s))) =
        - (holderDistance s
           + (intendedDistance s - holderDistance s)
             * capped (adjustmentSpeed s * dt))).
Proof.
  split.
  - intros s dt sceneRoot. split; [apply base_probe_none|].
    apply update_probe_none, base_probe_none.
  - intros E hooks s dt sceneRoot Hprobe. split.
    + unfold targetDistance, nearer.
      destruct (Rgt_dec (intendedDistance s) (intendedDistance s)); lra.
    + rewrite (update_holder dt Hprobe). unfold holder_after, targetDistance, nearer.
      cbn [getY setY].
      destruct (Rgt_dec (intendedDistance s) (intendedDistance s)); lra.
Qed.

Lemma base_update_raises_unobstructed_needs_override_witness :
  targetDistance tester_rig (intendedDistance tester_rig) = intendedDistance tester_rig /\
  getY (cameraHolder (final (update (1/60) open_scene tester_rig))) =
    - (holderDistance tester_rig
       + (intendedDistance tester_rig - holderDistance tester_rig)
         * capped (adjustmentSpeed tester_rig * (1/60))).
Proof.
  apply (proj2 base_update_raises_unobstructed_needs_override
           PandaCollision SimpleThirdPersonCameraPandaCollision
           tester_rig (1/60) open_scene).
  reflexivity.
Defined.

(* ===================================================================== *)
(** * The lateral blend *)

Section LateralBlend.
Context {E : Type} {hooks : CollisionHooks E}.

(** C5.  In an [update] that gets a number from the probe and finds the
    base in place: if [|targetLateral - currentLateral| < 0.001] the
    anchor's lateral offset becomes exactly [targetLateral], whatever [dt]
    and [sideSwitchSpeed] are; otherwise it becomes [currentLateral +
    (targetLateral - currentLateral) * min(sideSwitchSpeed * dt, 1)], which
    for non-negative [dt] and [sideSwitchSpeed] is [currentLateral +
    (targetLateral - currentLateral) * clamp(sideSwitchSpeed * dt, 0, 1)]. *)
Theorem update_lateral_snap_or_blend
    (s : rig E) (dt : R) (sceneRoot : SceneRoot) (d : R) (base : NodePath) :
  probe_returns sceneRoot s d ->
  cameraBase s = Some base ->
  let currentLateral := getX base in
  let targetLateral := shoulderSideDistance s * currentSide s in
  exists s' base',
    update dt sceneRoot s = Returns tt s' [] /\
    cameraBase s' = Some base' /\
    (Rabs (targetLateral - currentLateral) < 0.001 ->
     getX base' = targetLateral) /\
    (~ Rabs (targetLateral - currentLateral) < 0.001 ->
     getX base' =
       currentLateral
       + (targetLateral - currentLateral) * Rmin (sideSwitchSpeed s * dt) 1 /\
     (0 <= dt -> 0 <= sideSwitchSpeed s ->
      getX base' =
        currentLateral
        + (targetLateral - currentLateral) * clamp (sideSwitchSpeed s * dt) 0 1)).
Proof.
  intros Hprobe Hbase. cbn zeta.
  exists (tick_result s base dt d), (base_after s base dt).
  split; [apply (update_returns dt Hprobe Hbase)|].
  split; [reflexivity|].
  unfold base_after, targetLateral. cbn [getX setX].
  destruct (Rlt_dec _ _) as [Hnear|Hfar]; split; intros; try tauto.
  split; [rewrite capped_min; reflexivity|].
  intros. rewrite capped_clamp by nra. reflexivity.
Qed.
End LateralBlend.

Lemma update_lateral_snap_or_blend_witness :
  exists s' base',
    update (1/60) open_scene tester_rig = Returns tt s' [] /\
    cameraBase s' = Some base' /\
    (Rabs (0.5 * -1 - 0) < 0.001 -> getX base' = 0.5 * -1) /\
    (~ Rabs (0.5 * -1 - 0) < 0.001 ->
     getX base' = 0 + (0.5 * -1 - 0) * Rmin (10 * (1/60)) 1 /\
     (0 <= 1/60 -> 0 <= 10 ->
      getX base' = 0 + (0.5 * -1 - 0) * clamp (10 * (1/60)) 0 1)).
Proof.
  exact (update_lateral_snap_or_blend (s := tester_rig) (1/60)
           (sceneRoot := open_scene) (d := 5) (base := tester_base)
           eq_refl eq_refl).
Defined.

(* ===================================================================== *)
(** * Choosing a side *)

Section Side.
Context {E : Type} {hooks : CollisionHooks E}.

(** C9.  [setCurrentSide(side)] stores [side] in [currentSide] and
    changes nothing else: the anchor with its lateral offset, the holder
    with its distance and every other attribute are as before the call, and
    no scene edit is made. *)
Theorem setCurrentSide_frame (side : R) (s : rig E) :
  exists s',
    setCurrentSide side s = Returns tt s' [] /\
    currentSide s' = side /\
    cameraBase s' = cameraBase s /\
    cameraHolder s' = cameraHolder s /\
    camera s' = camera s /\
    ownerNodePath s' = ownerNodePath s /\
    shoulderSideDistance s' = shoulderSideDistance s /\
    intendedDistance s' = intendedDistance s /\
    height s' = height s /\
    tilt s' = tilt s /\
    sideSwitchSpeed s' = sideSwitchSpeed s /\
    adjustmentSpeed s' = adjustmentSpeed s /\
    ext s' = ext s.
Proof.
  exists (set_currentSide side s). repeat split.
Qed.
End Side.

(* ===================================================================== *)
(** * Runs of ticks *)

(** A convex step stays between where it starts and where it heads. *)
Lemma blend_between (cur target b : R) :
  0 <= b <= 1 ->
  Rmin cur target <= cur + (target - cur) * b <= Rmax cur target.
Proof.
  intros Hb. unfold Rmin, Rmax. destruct (Rle_dec cur target); split; nra.
Qed.


Section Runs.
Context {E : Type} {hooks : CollisionHooks E}.

(** What a completed tick leaves in the rig. *)
Lemma tick_inv (s s' : rig E) (dt d : R) :
  tick s (dt, d) s' ->
  exists base,
    cameraBase s = Some base /\
    s' = set_cameraBase (Some (base_after s base dt))
                        (set_cameraHolder (holder_after s dt d) s).
Proof.
  intros Htick. inversion Htick as [? ? sceneRoot ? ? ops Hprobe Hrun]; subst.
  eapply update_returned in Hrun; [|exact Hprobe].
  destruct Hrun as (base & Hbase & Hs' & _). exists base. auto.
Qed.





End Runs.

(* ===================================================================== *)
(** * The rigs as constructed *)

Lemma panda_constructed_returns
    (tilt intended shoulder height speed sideSpeed side : R)
    (owner cam : Handle) (radius : R) :
  panda_constructed tilt intended shoulder height speed sideSpeed side owner cam radius =
    Returns tt
      (mkRig (Some cam) (Some owner) shoulder intended height tilt sideSpeed speed
         (Some (mkNodePath (Created "third-person camera-base") 0 0 height tilt))
         (mkNodePath (Created "third-person camera-holder") 0 (- intended) 0 0)
         side
         (mkPandaCollision radius
            (Some (mkTraverser [Created "camera collider"]))
            (Some mkQueue)
            (Some (mkCollisionNode (camera_segments radius intended) 0 1))
            (Some (newNodePath (Created "camera collider")))))
      [ AttachNewNode (Borrowed owner) (Created "third-person camera-base");
        AttachNewNode (Created "third-person camera-base")
                      (Created "third-person camera-holder");
        ReparentTo (Borrowed cam) (Created "third-person camera-holder");
        AttachNewNode (Created "third-person camera-base") (Created "camera collider");
        AddCollider (Created "camera collider") ].
Proof. reflexivity. Qed.

Lemma base_constructed_returns
    (tilt intended shoulder height speed sideSpeed side : R) (owner cam : Handle) :
  constructed tt tilt intended shoulder height speed sideSpeed side owner cam =
    Returns tt
      (mkRig (Some cam) (Some owner) shoulder intended height tilt sideSpeed speed
         (Some (mkNodePath (Created "third-person camera-base") 0 0 height tilt))
         (mkNodePath (Created "third-person camera-holder") 0 (- intended) 0 0)
         side tt)
      [ AttachNewNode (Borrowed owner) (Created "third-person camera-base");
        AttachNewNode (Created "third-person camera-base")
                      (Created "third-person camera-holder");
        ReparentTo (Borrowed cam) (Created "third-person camera-holder") ].
Proof. reflexivity. Qed.

Lemma near_wall_distance :
  vlength (vsub (getPos near_wall_scene)
                (getSurfacePoint (mkEntry (Segment (-0.5) (-0.5) 0 (-0.5) (-5) 0)
                                          (mkVec3 (-0.5) (-1.2) 0))
                                 near_wall_scene)) = 1.3.
Proof.
  unfold vlength, lengthSquared, vsub, getPos, getSurfacePoint. cbn.
  replace (_ + _ + _) with (1.3 * 1.3) by lra.
  apply sqrt_square. lra.
Qed.



(* ===================================================================== *)
(** * The holder stays in range *)






(* ===================================================================== *)
(** * Convergence under a constant target *)

Section Convergence.
Context {E : Type} {hooks : CollisionHooks E}.



End Convergence.



(* ===================================================================== *)
(** * A negative elapsed time *)



(* ===================================================================== *)
(** * Cleaning up *)

Ltac run_cleanup :=
  unfold cleanup, cleanupCollision, SimpleThirdPersonCameraPandaCollision,
    SimpleThirdPersonCamera, panda_cleanupCollision, getattr_ext, assign_ext,
    bind, getattr, assign, call, deref, ret, raise;
  cbn.

(** [cleanup] on a rig of the base class. *)
Lemma base_cleanup_returns (s : base_rig) :
  cleanup s =
    Returns tt (set_cameraBase None (set_ownerNodePath None (set_camera None s)))
            (detach_ops (camera s) ++ base_ops (cameraBase s)).
Proof.
  destruct s as [cam owner ? ? ? ? ? ? base holder side []].
  destruct cam, owner, base; reflexivity.
Qed.

(** [cleanup] on a rig of the sub-class that returned. *)
Lemma panda_cleanup_returned (s s1 : panda_rig) (ops : list SceneOp) :
  cleanup s = Returns tt s1 ops ->
  s1 = set_ext (mkPandaCollision
                  (colliderRadius (ext s)) None None
                  (match collider (ext s) with
                   | Some _ => None
                   | None => colliderNode (ext s)
                   end) None)
               (set_cameraBase None (set_ownerNodePath None (set_camera None s))) /\
  ops = detach_ops (camera s) ++ collider_ops (collider (ext s))
        ++ base_ops (cameraBase s).
Proof.
  destruct s as [cam owner ? ? ? ? ? ? base holder side [radius trav queue cnode col]].
  destruct cam, owner, base, col, trav; run_cleanup;
    intros H; inversion H; subst; split; reflexivity.
Qed.

(** A rig of the sub-class whose references are all gone is left as it is. *)
Lemma panda_cleanup_released (s : panda_rig) :
  camera s = None -> ownerNodePath s = None -> cameraBase s = None ->
  collider (ext s) = None ->
  traverser (ext s) = None -> collisionQueue (ext s) = None ->
  cleanup s = Returns tt s [].
Proof.
  destruct s as [cam owner ? ? ? ? ? ? base holder side [radius trav queue cnode col]].
  cbn. intros -> -> -> -> -> ->. reflexivity.
Qed.

Lemma times_fixed {S} (m : method S unit) (s : S) (n : nat) :
  m s = Returns tt s [] -> times n m s = Returns tt s [].
Proof.
  intros Hm. induction n as [|n IH]; [reflexivity|].
  cbn. unfold bind. rewrite Hm, IH. reflexivity.
Qed.

(** C7.  After a [cleanup] that returned, on a rig of the base class or of
    the sub-class: the camera, the owner, the base, the collider, the
    traverser and the queue are all [None], and so is the collision node that
    was released with the collider; a second [cleanup], and any number of further ones,
    returns without an exception, leaves the rig as it is and makes no call
    on the scene graph.  The first call logged one [DetachNode] for the
    camera it held, and its [RemoveNode] calls went to the collider and to
    the base only. *)
Theorem cleanup_idempotent :
  (forall (s s1 : base_rig) (ops : list SceneOp),
      cleanup s = Returns tt s1 ops ->
      (forall n, times n cleanup s1 = Returns tt s1 []) /\
      cleanup s1 = Returns tt s1 [] /\
      camera s1 = None /\ ownerNodePath s1 = None /\ cameraBase s1 = None /\
      ops = detach_ops (camera s) ++ base_ops (cameraBase s)) /\
  (forall (s s1 : panda_rig) (ops : list SceneOp),
      cleanup s = Returns tt s1 ops ->
      (forall n, times n cleanup s1 = Returns tt s1 []) /\
      cleanup s1 = Returns tt s1 [] /\
      camera s1 = None /\ ownerNodePath s1 = None /\ cameraBase s1 = None /\
      collider (ext s1) = None /\
      traverser (ext s1) = None /\ collisionQueue (ext s1) = None /\
      (collider (ext s) <> None -> colliderNode (ext s1) = None) /\
      ops = detach_ops (camera s) ++ collider_ops (collider (ext s))
            ++ base_ops (cameraBase s)).
Proof.
  split.
  - intros s s1 ops Hrun. rewrite base_cleanup_returns in Hrun.
    inversion Hrun; subst.
    assert (Hagain : cleanup (set_cameraBase None
                                (set_ownerNodePath None (set_camera None s)))
                     = Returns tt (set_cameraBase None
                                     (set_ownerNodePath None (set_camera None s))) []).
    { rewrite base_cleanup_returns. reflexivity. }
    split; [intros n; apply times_fixed, Hagain|].
    split; [exact Hagain|]. repeat split.
  - intros s s1 ops Hrun.
    apply panda_cleanup_returned in Hrun. destruct Hrun as [-> ->].
    match goal with |- context [times _ cleanup ?t] => set (s1 := t) end.
    assert (Hagain : cleanup s1 = Returns tt s1 []).
    { apply panda_cleanup_released; reflexivity. }
    split; [intros n; apply times_fixed, Hagain|].
    split; [exact Hagain|]. repeat split.
    cbn. destruct (collider (ext s)); [reflexivity|congruence].
Qed.

Lemma tester_cleanup :
  cleanup tester_rig =
    Returns tt
      (mkRig None None 0.5 5 2 (-5) 10 7 None
             (mkNodePath (Created "third-person camera-holder") 0 (-5) 0 0)
             SIMPLE_THIRD_PERSON_CAMERA_SIDE_LEFT
             (mkPandaCollision 0.5 None None None None))
      [ DetachNode (Borrowed 1%nat);
        RemoveCollider (Created "camera collider");
        RemoveNode (Created "camera collider");
        RemoveNode (Created "third-person camera-base") ].
Proof. reflexivity. Qed.

Lemma cleanup_idempotent_witness :
  let s1 := mkRig None None 0.5 5 2 (-5) 10 7 None
                  (mkNodePath (Created "third-person camera-holder") 0 (-5) 0 0)
                  SIMPLE_THIRD_PERSON_CAMERA_SIDE_LEFT
                  (mkPandaCollision 0.5 None None None None) in
  cleanup s1 = Returns tt s1 [] /\
  [ DetachNode (Borrowed 1%nat);
    RemoveCollider (Created "camera collider");
    RemoveNode (Created "camera collider");
    RemoveNode (Created "third-person camera-base") ]
  = detach_ops (camera tester_rig) ++ collider_ops (collider (ext tester_rig))
    ++ base_ops (cameraBase tester_rig).
Proof.
  intros s1.
  pose proof (proj2 cleanup_idempotent tester_rig s1 _ tester_cleanup) as H.
  split; [apply H|]. apply H.
Defined.

(* ===================================================================== *)
(** * The stored side *)

Lemma base_pure_query : pure_query (hooks := SimpleThirdPersonCamera).
Proof. intros sceneRoot s. split; reflexivity. Qed.

Lemma panda_pure_query : pure_query (hooks := SimpleThirdPersonCameraPandaCollision).
Proof.
  intros sceneRoot s.
  destruct s as [cam owner ? ? ? ? ? ? base holder side [radius trav queue cnode col]].
  cbn. unfold panda_getNearestCollision, getattr_ext, bind, getattr, deref, getEntry.
  cbn.
  destruct trav; [|split; reflexivity].
  destruct queue; [|split; reflexivity]. cbn.
  destruct (getNumEntries (traverse sceneRoot)); [split; reflexivity|].
  destruct (sortEntries (traverse sceneRoot)); cbn; [split; reflexivity|].
  destruct base; split; reflexivity.
Qed.

Section StoredSide.
Context {E : Type} {hooks : CollisionHooks E}.
Hypothesis probe_pure : pure_query.

(** [update] never stores a side. *)
Lemma update_keeps_side (s : rig E) (dt : R) (sceneRoot : SceneRoot) :
  currentSide (final (update dt sceneRoot s)) = currentSide s.
Proof.
  destruct (probe_pure sceneRoot s) as [Hfinal Hlog].
  destruct (getNearestCollision sceneRoot s) as [v s1 ops|e s1 ops] eqn:Hprobe;
    cbn in Hfinal, Hlog; subst.
  - destruct v as [|d].
    + rewrite (update_probe_none dt sceneRoot Hprobe). reflexivity.
    + rewrite (update_unfold dt Hprobe). cbn.
      destruct (cameraBase s); reflexivity.
  - unfold update, bind, getattr. rewrite Hprobe. reflexivity.
Qed.

Lemma perform_all_side_returned (cs : list rig_call) (s s' : rig E) ops :
  perform_all cs s = Returns tt s' ops ->
  currentSide s' = last_side cs (currentSide s).
Proof.
  revert s ops. induction cs as [|c cs IH]; intros s ops Hrun; cbn in Hrun.
  - inversion Hrun. reflexivity.
  - unfold bind in Hrun.
    destruct (perform c s) as [[] s1 ops1|e s1 ops1] eqn:Hc; [|discriminate].
    destruct (perform_all cs s1) as [[] s2 ops2|e s2 ops2] eqn:Hrest; [|discriminate].
    inversion Hrun; subst. rewrite (IH _ _ Hrest).
    destruct c as [dt sceneRoot|side]; cbn [last_side]; unfold perform in Hc.
    + pose proof (update_keeps_side s dt sceneRoot) as Hkeep.
      rewrite Hc in Hkeep. cbn in Hkeep. rewrite Hkeep. reflexivity.
    + cbn in Hc. inversion Hc. reflexivity.
Qed.

Lemma perform_all_side_valid (cs : list rig_call) (s : rig E) :
  is_side (currentSide s) ->
  Forall call_with_side cs ->
  is_side (currentSide (final (perform_all cs s))).
Proof.
  revert s. induction cs as [|c cs IH]; intros s Hside Hall; [exact Hside|].
  inversion Hall as [|? ? Hc Hrest]; subst. cbn. unfold bind.
  assert (Hstep : is_side (currentSide (final (perform c s)))).
  { destruct c as [dt sceneRoot|side]; unfold perform.
    - rewrite update_keeps_side. exact Hside.
    - exact Hc. }
  destruct (perform c s) as [[] s1 ops1|e s1 ops1]; cbn in Hstep; [|exact Hstep].
  specialize (IH s1 Hstep Hrest).
  destruct (perform_all cs s1); exact IH.
Qed.
End StoredSide.

(** C8, as stated, fails: [setCurrentSide] stores a value that is none of
    the three sides. *)
Lemma setCurrentSide_stores_any_value_example :
  currentSide (final (perform_all [CallSetCurrentSide 2] tester_rig)) = 2 /\
  ~ is_side (currentSide (final (perform_all [CallSetCurrentSide 2] tester_rig))).
Proof.
  split; [reflexivity|]. cbn.
  unfold is_side, SIMPLE_THIRD_PERSON_CAMERA_SIDE_LEFT,
    SIMPLE_THIRD_PERSON_CAMERA_SIDE_CENTRE, SIMPLE_THIRD_PERSON_CAMERA_SIDE_RIGHT.
  intros [H|[H|H]]; lra.
Qed.

(** C8, amended.  [currentSide] is the value last passed to
    [setCurrentSide], and before any such call the constructor's
    [initialShoulderSide]: [update] never stores a side and [setCurrentSide]
    stores its argument as it is.  So [currentSide] is one of the three
    sides -1, 0, +1 after construction and after every sequence of calls,
    provided the initial side and every argument of [setCurrentSide] is one
    of them. *)
Theorem currentSide_is_last_side_asked :
  (forall (tilt intended shoulder height speed sideSpeed side : R)
          (owner cam : Handle) (radius : R),
      currentSide (final (panda_constructed tilt intended shoulder height
                            speed sideSpeed side owner cam radius)) = side /\
      currentSide (final (constructed tt tilt intended shoulder height
                            speed sideSpeed side owner cam)) = side) /\
  (forall (E : Type) (hooks : CollisionHooks E) (cs : list rig_call) (s : rig E),
      pure_query ->
      (forall s' ops,
          perform_all cs s = Returns tt s' ops ->
          currentSide s' = last_side cs (currentSide s)) /\
      (is_side (currentSide s) ->
       Forall call_with_side cs ->
       is_side (currentSide (final (perform_all cs s))))).
Proof.
  split.
  - intros. rewrite panda_constructed_returns, base_constructed_returns.
    split; reflexivity.
  - intros E hooks cs s Hpure. split.
    + intros s' ops. apply perform_all_side_returned, Hpure.
    + apply perform_all_side_valid, Hpure.
Qed.

Lemma currentSide_is_last_side_asked_witness :
  is_side (currentSide
             (final (perform_all
                       [ CallSetCurrentSide SIMPLE_THIRD_PERSON_CAMERA_SIDE_RIGHT;
                         CallUpdate (1/60) open_scene;
                         CallSetCurrentSide SIMPLE_THIRD_PERSON_CAMERA_SIDE_CENTRE ]
                       tester_rig))).
Proof.
  apply (proj2 currentSide_is_last_side_asked PandaCollision
           SimpleThirdPersonCameraPandaCollision).
  - exact panda_pure_query.
  - left. reflexivity.
  - apply Forall_cons; [right; right; reflexivity|].
    apply Forall_cons; [exact I|].
    apply Forall_cons; [right; left; reflexivity|].
    apply Forall_nil.
Defined.

(* ===================================================================== *)
(** * Sorting the queue *)

Lemma insertEntry_In (e x : CollisionEntry) (q : list CollisionEntry) :
  In x (insertEntry e q) <-> x = e \/ In x q.
Proof.
  induction q as [|h q IH]; cbn.
  - intuition congruence.
  - destruct (Rle_dec (originDistance2 e) (originDistance2 h)); cbn.
    + intuition congruence.
    + rewrite IH. intuition congruence.
Qed.

Lemma insertEntry_head_least (e : CollisionEntry) (q : list CollisionEntry) :
  head_least q -> head_least (insertEntry e q).
Proof.
  destruct q as [|h q]; cbn.
  - intros _ x [<-|[]]. lra.
  - intros Hleast.
    destruct (Rle_dec (originDistance2 e) (originDistance2 h)) as [Hle|Hgt].
    + intros x [<-|Hx]; [lra|]. specialize (Hleast x Hx). lra.
    + intros x [<-|Hx]; [lra|]. apply insertEntry_In in Hx.
      destruct Hx as [->|Hx]; [lra|]. apply Hleast. right. exact Hx.
Qed.

Lemma sortEntries_In (x : CollisionEntry) (q : list CollisionEntry) :
  In x (sortEntries q) <-> In x q.
Proof.
  induction q as [|h q IH]; cbn; [tauto|].
  rewrite insertEntry_In, IH. intuition congruence.
Qed.

Lemma sortEntries_head_least (q : list CollisionEntry) :
  head_least (sortEntries q).
Proof.
  induction q as [|h q IH]; cbn; [exact I|].
  apply insertEntry_head_least, IH.
Qed.

(** The first entry of a sorted queue that is not empty: one of the
    recorded intersections, with the least key of all. *)
Lemma sortEntries_first (q : list CollisionEntry) :
  q <> [] ->
  exists e rest,
    sortEntries q = e :: rest /\
    In e q /\
    forall x, In x q -> originDistance2 e <= originDistance2 x.
Proof.
  intros Hq. pose proof (sortEntries_head_least q) as Hleast.
  destruct (sortEntries q) as [|e rest] eqn:Hsorted.
  - destruct q as [|h q]; [congruence|].
    assert (Hin : In h (sortEntries (h :: q))) by (apply sortEntries_In; left; reflexivity).
    rewrite Hsorted in Hin. destruct Hin.
  - exists e, rest. split; [reflexivity|]. split.
    + apply sortEntries_In. rewrite Hsorted. left. reflexivity.
    + intros x Hx. apply Hleast. rewrite <- Hsorted. apply sortEntries_In, Hx.
Qed.

(* ===================================================================== *)
(** * The four-segment probe *)

(** What the probe answers on a rig whose collision objects and base are in
    place. *)
Lemma panda_probe_unfold (s : panda_rig) (sceneRoot : SceneRoot)
    (trav : CollisionTraverser) (queue : CollisionHandlerQueue) (base : NodePath) :
  traverser (ext s) = Some trav ->
  collisionQueue (ext s) = Some queue ->
  cameraBase s = Some base ->
  getNearestCollision sceneRoot s =
    Returns (PyNum match sortEntries (traverse sceneRoot) with
                   | entry :: _ => anchorDistance sceneRoot entry
                   | [] => intendedDistance s
                   end) s [].
Proof.
  destruct s as [cam owner ? ? ? ? ? ? b holder side [radius t q cnode col]].
  cbn. intros -> -> ->.
  unfold panda_getNearestCollision, getattr_ext, bind, getattr, deref, getEntry.
  cbn -[sortEntries getNumEntries Nat.ltb].
  destruct (traverse sceneRoot) as [|h found] eqn:Hfound; [reflexivity|].
  destruct (@sortEntries_first (h :: found)) as (e & rest & Hsorted & _);
    [discriminate|].
  rewrite Hsorted. reflexivity.
Qed.

Lemma anchorDistance_isometry (sceneRoot : SceneRoot) (e : CollisionEntry) :
  isometry (toScene sceneRoot) ->
  anchorDistance sceneRoot e = sqrt (lengthSquared (surfacePoint e)).
Proof.
  intros Hiso. unfold anchorDistance, getPos, getSurfacePoint.
  rewrite Hiso. unfold vlength. f_equal.
  unfold lengthSquared, vsub, origin. cbn. ring.
Qed.

(** A hit on one of the four segments, by how far behind the anchor it
    lies. *)
Lemma hit_geometry (radius intended : R) (e : CollisionEntry) :
  0 <= radius <= intended ->
  In (fromSolid e) (camera_segments radius intended) ->
  on_segment (fromSolid e) (surfacePoint e) ->
  exists u : R,
    radius <= u <= intended /\
    lengthSquared (surfacePoint e) = radius * radius + u * u /\
    originDistance2 e = (u - radius) * (u - radius).
Proof.
  intros Hr Hin (t & Ht & Hp). destruct e as [seg p]. cbn in *.
  exists (radius + t * (intended - radius)).
  split; [nra|].
  unfold originDistance2, lengthSquared, vsub. cbn.
  destruct Hin as [<-|[<-|[<-|[<-|[]]]]]; cbn in Hp; subst p; cbn; split; ring.
Qed.

Lemma sqrt_sum_le (a u v : R) :
  0 <= u <= v -> sqrt (a * a + u * u) <= sqrt (a * a + v * v).
Proof. intros Huv. apply sqrt_le_1; nra. Qed.

(** Among hits on the four segments, the one nearest to the start of its
    segment is the one nearest to the anchor. *)
Lemma least_key_nearest (s : panda_rig) (sceneRoot : SceneRoot) (e x : CollisionEntry) :
  isometry (toScene sceneRoot) ->
  0 <= colliderRadius (ext s) <= intendedDistance s ->
  hit_on_collider s e ->
  hit_on_collider s x ->
  originDistance2 e <= originDistance2 x ->
  anchorDistance sceneRoot e <= anchorDistance sceneRoot x.
Proof.
  intros Hiso Hr [Hine Hone] [Hinx Honx] Hkey.
  destruct (hit_geometry e Hr Hine Hone) as (u & Hu & Hlen & Hkeye).
  destruct (hit_geometry x Hr Hinx Honx) as (v & Hv & Hlenx & Hkeyx).
  rewrite !anchorDistance_isometry by exact Hiso. rewrite Hlen, Hlenx.
  apply sqrt_sum_le. rewrite Hkeye, Hkeyx in Hkey. nra.
Qed.

Lemma hit_within_reach (s : panda_rig) (sceneRoot : SceneRoot) (e : CollisionEntry) :
  isometry (toScene sceneRoot) ->
  0 <= colliderRadius (ext s) <= intendedDistance s ->
  hit_on_collider s e ->
  anchorDistance sceneRoot e
    <= sqrt (colliderRadius (ext s) * colliderRadius (ext s)
             + intendedDistance s * intendedDistance s).
Proof.
  intros Hiso Hr [Hine Hone].
  destruct (hit_geometry e Hr Hine Hone) as (u & Hu & Hlen & _).
  rewrite anchorDistance_isometry by exact Hiso. rewrite Hlen.
  apply sqrt_sum_le. lra.
Qed.

Lemma level_rig_eq :
  level_rig =
    mkRig (Some 1%nat) (Some 0%nat) 0.5 5 0 0 10 7
          (Some level_base)
          (mkNodePath (Created "third-person camera-holder") 0 (-5) 0 0)
          SIMPLE_THIRD_PERSON_CAMERA_SIDE_LEFT
          (mkPandaCollision 1
             (Some (mkTraverser [Created "camera collider"]))
             (Some mkQueue)
             (Some (mkCollisionNode (camera_segments 1 5) 0 1))
             (Some (newNodePath (Created "camera collider")))).
Proof. reflexivity. Qed.

Lemma far_wall_hit_on_collider :
  Forall (hit_on_collider level_rig) (traverse far_wall_scene).
Proof.
  apply Forall_cons; [|apply Forall_nil]. split.
  - left. reflexivity.
  - exists 1. split; [lra|]. cbn. f_equal; lra.
Qed.

Lemma identity_isometry : isometry (fun p => p).
Proof. intros p q. reflexivity. Qed.

(** C6, as stated, fails.  The rig has [intendedDistance = 5] and the
    default collider radius 1; a wall meets its first segment at the far end,
    [(-1, -5, 0)] from the anchor.  The probe answers [sqrt 26], which is
    more than [intendedDistance]. *)
Lemma probe_exceeds_intended_distance_example :
  exists v : R,
    getNearestCollision far_wall_scene level_rig
      = Returns (PyNum v) level_rig [] /\
    v = sqrt 26 /\
    intendedDistance level_rig < v /\
    ~ (0 <= v <= intendedDistance level_rig).
Proof.
  exists (sqrt 26).
  assert (Hv : 5 < sqrt 26).
  { replace 5 with (sqrt (5 * 5)) at 1 by (apply sqrt_square; lra).
    apply sqrt_lt_1; lra. }
  split.
  - rewrite (@panda_probe_unfold level_rig far_wall_scene
               (mkTraverser [Created "camera collider"]) mkQueue level_base
               eq_refl eq_refl eq_refl).
    cbn [far_wall_scene traverse sortEntries fold_right insertEntry].
    unfold anchorDistance, vlength. do 2 f_equal.
    unfold lengthSquared, vsub, getPos, getSurfacePoint. cbn. f_equal. lra.
  - split; [reflexivity|]. cbn. split; [lra|]. intros [_ Hle]. lra.
Qed.

(** C6, amended.  On a rig whose collision objects and base are in place,
    [getNearestCollision] returns a number and leaves the rig alone.  The
    number is non-negative when [intendedDistance] is; it is
    [intendedDistance] itself when the traversal records no intersection;
    otherwise it is the distance from the anchor to the surface point of the
    first entry of the sorted queue, an intersection with the least distance
    to the start of its segment.  When the intersections lie on the rig's
    four segments, [0 <= colliderRadius <= intendedDistance] and the anchor's
    frame is placed in the scene without scaling, that number is the least
    distance from the anchor over all recorded intersections, and it is at
    most [sqrt(colliderRadius^2 + intendedDistance^2)]; no bound by
    [intendedDistance] is stated. *)
Theorem nearest_collision_result
    (s : panda_rig) (sceneRoot : SceneRoot)
    (trav : CollisionTraverser) (queue : CollisionHandlerQueue) (base : NodePath) :
  traverser (ext s) = Some trav ->
  collisionQueue (ext s) = Some queue ->
  cameraBase s = Some base ->
  exists v : R,
    getNearestCollision sceneRoot s = Returns (PyNum v) s [] /\
    (0 <= intendedDistance s -> 0 <= v) /\
    (traverse sceneRoot = [] -> v = intendedDistance s) /\
    (traverse sceneRoot <> [] ->
     exists e,
       In e (traverse sceneRoot) /\
       v = anchorDistance sceneRoot e /\
       forall x, In x (traverse sceneRoot) ->
                 originDistance2 e <= originDistance2 x) /\
    (isometry (toScene sceneRoot) ->
     0 <= colliderRadius (ext s) <= intendedDistance s ->
     (forall x, In x (traverse sceneRoot) -> hit_on_collider s x) ->
     (forall x, In x (traverse sceneRoot) -> v <= anchorDistance sceneRoot x) /\
     v <= sqrt (colliderRadius (ext s) * colliderRadius (ext s)
                + intendedDistance s * intendedDistance s)).
Proof.
  intros Htrav Hqueue Hbase.
  rewrite (panda_probe_unfold s sceneRoot Htrav Hqueue Hbase).
  destruct (traverse sceneRoot) as [|h found] eqn:Hfound.
  - exists (intendedDistance s). cbn.
    split; [reflexivity|]. split; [tauto|]. split; [reflexivity|].
    split; [congruence|]. intros _ Hr _. split; [intros x []|].
    rewrite <- (sqrt_square (intendedDistance s)) at 1 by lra.
    apply sqrt_le_1; nra.
  - destruct (@sortEntries_first (h :: found)) as (e & rest & Hsorted & Hin & Hleast);
      [discriminate|].
    rewrite Hsorted. exists (anchorDistance sceneRoot e).
    split; [reflexivity|].
    split; [intros _; apply sqrt_pos|].
    split; [discriminate|].
    split; [intros _; exists e; auto|].
    intros Hiso Hr Hhits. split.
    + intros x Hx. apply (@least_key_nearest s); auto.
    + apply hit_within_reach; auto.
Qed.

Lemma nearest_collision_result_witness :
  exists v : R,
    getNearestCollision far_wall_scene level_rig
      = Returns (PyNum v) level_rig [] /\
    0 <= v /\
    (forall x, In x (traverse far_wall_scene) ->
               v <= anchorDistance far_wall_scene x) /\
    v <= sqrt (1 * 1 + 5 * 5).
Proof.
  destruct (@nearest_collision_result level_rig far_wall_scene
              (mkTraverser [Created "camera collider"]) mkQueue level_base
              eq_refl eq_refl eq_refl)
    as (v & Hret & Hpos & _ & _ & Hnearest).
  exists v. split; [exact Hret|].
  split; [apply Hpos; cbn; lra|].
  apply Hnearest.
  - exact identity_isometry.
  - cbn. lra.
  - apply Forall_forall. exact far_wall_hit_on_collider.
Defined.

(* ===================================================================== *)
(** * More about one [update] *)

Lemma setY_getY (np : NodePath) : setY np (getY np) = np.
Proof. destruct np. reflexivity. Qed.

Lemma setX_getX (np : NodePath) : setX np (getX np) = np.
Proof. destruct np. reflexivity. Qed.

Section UpdateFrame.
Context {E : Type} {hooks : CollisionHooks E}.

(** X1.  Whatever a probe that is a pure query answers, and whether
    [update] returns or raises, the call makes no scene edit and changes
    nothing of the rig but the Y of the holder and the X of the base: the
    references to camera and owner, the six parameters, the side, the
    attributes of the sub-class, and every other transform component of the
    two nodes are as before. *)
Theorem update_moves_two_offsets_only
    (s : rig E) (dt : R) (sceneRoot : SceneRoot) :
  pure_query ->
  let s' := final (update dt sceneRoot s) in
  logged (update dt sceneRoot s) = [] /\
  (exists y, cameraHolder s' = setY (cameraHolder s) y) /\
  (exists x, cameraBase s' = option_map (fun b => setX b x) (cameraBase s)) /\
  camera s' = camera s /\
  ownerNodePath s' = ownerNodePath s /\
  shoulderSideDistance s' = shoulderSideDistance s /\
  intendedDistance s' = intendedDistance s /\
  height s' = height s /\
  tilt s' = tilt s /\
  sideSwitchSpeed s' = sideSwitchSpeed s /\
  adjustmentSpeed s' = adjustmentSpeed s /\
  currentSide s' = currentSide s /\
  ext s' = ext s.
Proof.
  intros Hpure. cbn zeta.
  assert (Hsame : forall t : rig E,
             (exists y, cameraHolder t = setY (cameraHolder t) y) /\
             (exists x, cameraBase t = option_map (fun b => setX b x) (cameraBase t))).
  { intros t. split.
    - exists (getY (cameraHolder t)). symmetry. apply setY_getY.
    - destruct (cameraBase t) as [b|]; cbn.
      + exists (getX b). rewrite setX_getX. reflexivity.
      + exists 0. reflexivity. }
  destruct (Hpure sceneRoot s) as [Hfinal Hlog].
  destruct (getNearestCollision sceneRoot s) as [v s1 ops|e s1 ops] eqn:Hprobe;
    cbn in Hfinal, Hlog; subst.
  - destruct v as [|d].
    + rewrite (update_probe_none dt sceneRoot Hprobe). cbn.
      destruct (Hsame s). repeat split; assumption.
    + rewrite (update_unfold dt Hprobe). cbn.
      unfold holder_after, base_after.
      destruct (cameraBase s) as [base|] eqn:Hbase; cbn;
        (split; [reflexivity|]); (split; [eexists; reflexivity|]).
      * split; [eexists; reflexivity|]. repeat split.
      * split; [exists 0; exact Hbase|]. repeat split.
  - unfold update, bind, getattr. rewrite Hprobe. cbn.
    destruct (Hsame s). repeat split; assumption.
Qed.
End UpdateFrame.

Lemma update_moves_two_offsets_only_witness :
  logged (update (1/60) near_wall_scene tester_rig) = [] /\
  ext (final (update (1/60) near_wall_scene tester_rig)) = ext tester_rig.
Proof.
  pose proof (@update_moves_two_offsets_only PandaCollision
                SimpleThirdPersonCameraPandaCollision tester_rig (1/60)
                near_wall_scene panda_pure_query) as H.
  cbn zeta in H. split; apply H.
Defined.

Section UpdateEdges.
Context {E : Type} {hooks : CollisionHooks E}.


(** X3.  With [dt >= 0], a non-negative adjustment speed and non-negative
    distances, [update] leaves the holder at or behind the anchor (its Y is
    not positive), also when the holder was in front of it before the
    call. *)
Theorem update_puts_holder_behind_anchor
    (s : rig E) (dt : R) (sceneRoot : SceneRoot) (d : R) :
  probe_returns sceneRoot s d ->
  0 <= dt ->
  0 <= adjustmentSpeed s ->
  0 <= intendedDistance s ->
  0 <= d ->
  getY (cameraHolder (final (update dt sceneRoot s))) <= 0.
Proof.
  intros Hprobe Hdt Ha HD Hd.
  rewrite (update_holder dt Hprobe).
  unfold holder_after. cbn [getY setY].
  set (b := capped (adjustmentSpeed s * dt)).
  assert (Hb : 0 <= b <= 1).
  { split; [apply capped_nonneg; nra | apply capped_le_1]. }
  assert (Ht : 0 <= targetDistance s d).
  { unfold targetDistance, nearer. destruct (Rgt_dec _ _); lra. }
  assert (Hcur : 0 <= holderDistance s) by apply Rabs_pos.
  pose proof (blend_between (holderDistance s) (targetDistance s d) Hb) as Hbetween.
  unfold Rmin in Hbetween.
  destruct (Rle_dec (holderDistance s) (targetDistance s d)); lra.
Qed.

(** X4.  Every probe answer at or beyond [intendedDistance] counts for the
    same: two calls of [update] on the same rig whose probes answer with such
    numbers have the same outcome. *)
Theorem answers_beyond_intended_distance_count_alike
    (s : rig E) (dt : R) (scene1 scene2 : SceneRoot) (d1 d2 : R) :
  probe_returns scene1 s d1 ->
  probe_returns scene2 s d2 ->
  intendedDistance s <= d1 ->
  intendedDistance s <= d2 ->
  update dt scene1 s = update dt scene2 s.
Proof.
  intros H1 H2 Hd1 Hd2.
  rewrite (update_unfold dt H1), (update_unfold dt H2).
  assert (Hsame : holder_after s dt d1 = holder_after s dt d2).
  { unfold holder_after, targetDistance, nearer.
    destruct (Rgt_dec _ d1), (Rgt_dec _ d2); try lra. reflexivity. }
  cbn zeta. rewrite Hsame. reflexivity.
Qed.
End UpdateEdges.


Lemma update_puts_holder_behind_anchor_witness :
  getY (cameraHolder
          (final (update (1/60) near_wall_scene
                    (set_cameraHolder (setY (cameraHolder tester_rig) 3) tester_rig))))
    <= 0.
Proof.
  apply (@update_puts_holder_behind_anchor PandaCollision
           SimpleThirdPersonCameraPandaCollision
           (set_cameraHolder (setY (cameraHolder tester_rig) 3) tester_rig)
           (1/60) near_wall_scene 1.3).
  - unfold probe_returns. rewrite <- near_wall_distance. reflexivity.
  - lra.
  - cbn. lra.
  - cbn. lra.
  - lra.
Defined.

(** What the probe of the level rig answers for the far wall. *)
Lemma level_rig_far_wall_probe :
  exists v : R,
    probe_returns far_wall_scene level_rig v /\ intendedDistance level_rig <= v.
Proof.
  exists (anchorDistance far_wall_scene
            (mkEntry (Segment (-1) (-1) 0 (-1) (-5) 0) (mkVec3 (-1) (-5) 0))).
  split; [reflexivity|].
  unfold anchorDistance, vlength, lengthSquared, vsub, getPos, getSurfacePoint. cbn.
  replace 5 with (sqrt (5 * 5)) at 1 by (apply sqrt_square; lra).
  apply sqrt_le_1; lra.
Qed.

Lemma answers_beyond_intended_distance_count_alike_witness :
  update (1/60) far_wall_scene level_rig = update (1/60) open_scene level_rig.
Proof.
  destruct level_rig_far_wall_probe as (v & Hfar & Hv).
  apply (@answers_beyond_intended_distance_count_alike PandaCollision
           SimpleThirdPersonCameraPandaCollision level_rig (1/60)
           far_wall_scene open_scene v 5).
  - exact Hfar.
  - reflexivity.
  - exact Hv.
  - cbn. lra.
Defined.

(* ===================================================================== *)
(** * The lateral offset over many ticks *)

Section Lateral.
Context {E : Type} {hooks : CollisionHooks E}.

(** The lateral offset one completed tick leaves. *)
Lemma tick_lateral (s s' : rig E) (dt d : R) :
  tick s (dt, d) s' ->
  lateralOffset s' =
    (if Rlt_dec (Rabs (targetLateral s - lateralOffset s)) 0.001
     then targetLateral s
     else lateralOffset s
          + (targetLateral s - lateralOffset s) * capped (sideSwitchSpeed s * dt)) /\
  targetLateral s' = targetLateral s /\
  sideSwitchSpeed s' = sideSwitchSpeed s.
Proof.
  intros Htick. destruct (tick_inv Htick) as (base & Hbase & ->).
  unfold lateralOffset. rewrite Hbase. repeat split.
Qed.

(** One tick multiplies the lateral gap by at most one minus the blend
    factor. *)
Lemma tick_lateral_gap (s s' : rig E) (dt d : R) :
  tick s (dt, d) s' ->
  0 <= sideSwitchSpeed s * dt ->
  Rabs (lateralOffset s' - targetLateral s)
    <= (1 - capped (sideSwitchSpeed s * dt))
       * Rabs (lateralOffset s - targetLateral s).
Proof.
  intros Htick Hsdt. destruct (tick_lateral Htick) as (-> & _).
  set (b := capped (sideSwitchSpeed s * dt)).
  assert (Hb : 0 <= b <= 1).
  { split; [apply capped_nonneg; exact Hsdt | apply capped_le_1]. }
  assert (Hgap : 0 <= Rabs (lateralOffset s - targetLateral s)) by apply Rabs_pos.
  destruct (Rlt_dec _ _).
  - replace (targetLateral s - targetLateral s) with 0 by ring.
    rewrite Rabs_R0. nra.
  - replace (lateralOffset s + (targetLateral s - lateralOffset s) * b - targetLateral s)
      with ((1 - b) * (lateralOffset s - targetLateral s)) by ring.
    rewrite Rabs_mult, (Rabs_pos_eq (1 - b)) by lra. lra.
Qed.

Lemma ticks_lateral_gap (s s' : rig E) (dt : R) (labels : list (R * R)) :
  ticks s labels s' ->
  constant_dt dt labels ->
  0 <= sideSwitchSpeed s * dt ->
  targetLateral s' = targetLateral s /\
  sideSwitchSpeed s' = sideSwitchSpeed s /\
  Rabs (lateralOffset s' - targetLateral s)
    <= (1 - capped (sideSwitchSpeed s * dt)) ^ List.length labels
       * Rabs (lateralOffset s - targetLateral s).
Proof.
  induction 1 as [s|s [dt' d] s1 labels s2 Htick _ IH]; intros Hconst Hsdt.
  - cbn. repeat split; lra.
  - inversion Hconst as [|? ? Hdt Hrest]. cbn in Hdt. subst dt'. cbn [List.length pow].
    destruct (tick_lateral Htick) as (_ & Htl & Hspeed).
    destruct IH as (IHtl & IHspeed & IHgap); rewrite ?Hspeed; try assumption.
    rewrite Htl in IHtl, IHgap. rewrite Hspeed in IHgap.
    split; [exact IHtl|]. split; [congruence|].
    pose proof (tick_lateral_gap Htick Hsdt) as Hstep.
    set (q := 1 - capped (sideSwitchSpeed s * dt)) in *.
    assert (Hq : 0 <= q).
    { unfold q. pose proof (capped_le_1 (sideSwitchSpeed s * dt)). lra. }
    assert (Hpow : 0 <= q ^ List.length labels) by (apply pow_le; exact Hq).
    eapply Rle_trans; [exact IHgap|].
    apply Rle_trans
      with (q ^ List.length labels * (q * Rabs (lateralOffset s - targetLateral s)));
      [apply Rmult_le_compat_l; assumption | apply Req_le; ring].
Qed.

(** Once within the threshold, any further ticks leave the lateral offset
    exactly on its target. *)
Lemma ticks_lateral_snapped (s s' : rig E) (labels : list (R * R)) :
  ticks s labels s' ->
  labels <> [] ->
  Rabs (targetLateral s - lateralOffset s) < 0.001 ->
  lateralOffset s' = targetLateral s.
Proof.
  induction 1 as [s|s [dt d] s1 labels s2 Htick Hrest IH]; intros Hne Hnear;
    [congruence|].
  destruct (tick_lateral Htick) as (Hoff & Htl & _).
  destruct (Rlt_dec _ _) as [_|Hfar]; [|contradiction].
  destruct labels as [|l labels].
  - inversion Hrest; subst. exact Hoff.
  - rewrite <- Htl. apply IH; [discriminate|].
    rewrite Htl, Hoff.
    replace (targetLateral s - targetLateral s) with 0 by ring.
    rewrite Rabs_R0. lra.
Qed.

Lemma ticks_app_inv (l1 l2 : list (R * R)) (s s' : rig E) :
  ticks s (l1 ++ l2) s' ->
  exists s1, ticks s l1 s1 /\ ticks s1 l2 s'.
Proof.
  revert s. induction l1 as [|l l1 IH]; intros s Hrun; cbn in Hrun.
  - exists s. split; [constructor | exact Hrun].
  - inversion Hrun as [|? ? s1 ? ? Htick Hrest]; subst.
    destruct (IH s1 Hrest) as (s2 & H1 & H2).
    exists s2. split; [econstructor; eassumption | exact H2].
Qed.

(** X6.  With a constant [dt > 0] and a positive side-switch speed, the
    lateral offset does not only approach its target: there is a number of
    ticks after which it is exactly [shoulderSideDistance * currentSide], and
    it stays there for every longer run (the side not being changed in
    between, the probe answering what it may). *)
Theorem lateral_offset_arrives (s0 : rig E) (dt : R) :
  0 < dt ->
  0 < sideSwitchSpeed s0 ->
  exists N : nat,
    forall labels s',
      ticks s0 labels s' ->
      constant_dt dt labels ->
      (N <= List.length labels)%nat ->
      lateralOffset s' = shoulderSideDistance s0 * currentSide s0.
Proof.
  intros Hdt Hspeed.
  assert (Hsdt : 0 <= sideSwitchSpeed s0 * dt) by nra.
  set (q := 1 - capped (sideSwitchSpeed s0 * dt)).
  assert (Hq : 0 <= q < 1).
  { unfold q. pose proof (capped_le_1 (sideSwitchSpeed s0 * dt)).
    assert (0 < capped (sideSwitchSpeed s0 * dt)) by (apply capped_pos; nra). lra. }
  set (gap := Rabs (lateralOffset s0 - targetLateral s0)).
  assert (Hgap : 0 <= gap) by apply Rabs_pos.
  assert (Hfactor : Rabs q < 1) by (rewrite Rabs_pos_eq; lra).
  destruct (pow_lt_1_zero q Hfactor (0.001 / (gap + 1))) as [N0 HN0].
  { apply Rdiv_lt_0_compat; lra. }
  exists (S N0). intros labels s' Hrun Hconst Hlen.
  rewrite <- (firstn_skipn N0 labels) in Hrun.
  apply ticks_app_inv in Hrun. destruct Hrun as (s1 & Hfirst & Hlast).
  assert (Hlen1 : List.length (firstn N0 labels) = N0).
  { apply List.firstn_length_le. lia. }
  assert (Hconst1 : constant_dt dt (firstn N0 labels)).
  { unfold constant_dt in *. rewrite <- (firstn_skipn N0 labels) in Hconst.
    apply Forall_app in Hconst. apply Hconst. }
  destruct (ticks_lateral_gap Hfirst Hconst1 Hsdt) as (Htl & _ & Hbound).
  rewrite Hlen1 in Hbound. fold q gap in Hbound.
  change (shoulderSideDistance s0 * currentSide s0) with (targetLateral s0).
  rewrite <- Htl. apply (ticks_lateral_snapped Hlast).
  - intros Hnil.
    assert (Hskip : List.length (skipn N0 labels) = (List.length labels - N0)%nat)
      by apply List.length_skipn.
    rewrite Hnil in Hskip. cbn in Hskip. lia.
  - rewrite Htl, Rabs_minus_sym.
    specialize (HN0 N0 (Nat.le_refl N0)).
    rewrite Rabs_pos_eq in HN0 by (apply pow_le; lra).
    assert (Hpow : 0 <= q ^ N0) by (apply pow_le; lra).
    assert (Hscaled : q ^ N0 * (gap + 1) < 0.001).
    { apply (Rmult_lt_compat_r (gap + 1)) in HN0; [|lra].
      unfold Rdiv in HN0. rewrite Rmult_assoc, Rinv_l in HN0; lra. }
    nra.
Qed.
End Lateral.

Lemma lateral_offset_arrives_witness :
  exists N : nat,
    forall labels s',
      ticks tester_rig labels s' ->
      constant_dt (1/60) labels ->
      (N <= List.length labels)%nat ->
      lateralOffset s' = shoulderSideDistance tester_rig * currentSide tester_rig.
Proof.
  apply (@lateral_offset_arrives PandaCollision
           SimpleThirdPersonCameraPandaCollision tester_rig (1/60)).
  - lra.
  - cbn. lra.
Defined.

Section LateralStep.
Context {E : Type} {hooks : CollisionHooks E}.

End LateralStep.


(* ===================================================================== *)
(** * Whole lives of a rig of the sub-class *)

Lemma live_probe_returns (s : panda_rig) (sceneRoot : SceneRoot) :
  live s -> exists v, probe_returns sceneRoot s v.
Proof.
  intros (Hbase & Htrav & Hqueue & _).
  destruct (cameraBase s) as [base|] eqn:Hb; [|congruence].
  destruct (traverser (ext s)) as [trav|] eqn:Ht; [|congruence].
  destruct (collisionQueue (ext s)) as [queue|] eqn:Hq; [|congruence].
  eexists. apply (panda_probe_unfold s sceneRoot Ht Hq Hb).
Qed.

Lemma live_update_returns (s : panda_rig) (dt : R) (sceneRoot : SceneRoot) :
  live s -> exists s', update dt sceneRoot s = Returns tt s' [] /\ live s'.
Proof.
  intros Hlive. destruct (live_probe_returns sceneRoot Hlive) as [v Hprobe].
  destruct Hlive as (Hbase & Hrest).
  destruct (cameraBase s) as [base|] eqn:Hb; [|congruence].
  eexists. split; [apply (update_returns dt Hprobe Hb)|].
  split; [discriminate | exact Hrest].
Qed.

Lemma released_probe_raises (s : panda_rig) (sceneRoot : SceneRoot) :
  released s -> getNearestCollision sceneRoot s = Raises AttributeError s [].
Proof.
  intros (_ & _ & _ & Htrav & _).
  destruct s as [cam owner ? ? ? ? ? ? base holder side [radius trav queue cnode col]].
  cbn in Htrav. subst trav. reflexivity.
Qed.

Lemma released_update_raises (s : panda_rig) (dt : R) (sceneRoot : SceneRoot) :
  released s -> update dt sceneRoot s = Raises AttributeError s [].
Proof.
  intros Hrel. unfold update, bind, getattr.
  rewrite (released_probe_raises sceneRoot Hrel). reflexivity.
Qed.

(** [cleanup] on a rig of the sub-class whose traverser is in place. *)
Lemma panda_cleanup_returns (s : panda_rig) (trav : CollisionTraverser) :
  traverser (ext s) = Some trav ->
  cleanup s =
    Returns tt
      (set_ext (mkPandaCollision (colliderRadius (ext s)) None None
                  (match collider (ext s) with
                   | Some _ => None
                   | None => colliderNode (ext s)
                   end) None)
               (set_cameraBase None (set_ownerNodePath None (set_camera None s))))
      (detach_ops (camera s) ++ collider_ops (collider (ext s))
       ++ base_ops (cameraBase s)).
Proof.
  destruct s as [cam owner ? ? ? ? ? ? base holder side [radius t queue cnode col]].
  cbn [ext traverser]. intros ->.
  destruct cam, owner, base, col; reflexivity.
Qed.

Lemma live_cleanup_returns (s : panda_rig) :
  live s -> exists s' ops, cleanup s = Returns tt s' ops /\ released s'.
Proof.
  intros (_ & Htrav & _ & _).
  destruct (traverser (ext s)) as [trav|] eqn:Ht; [|congruence].
  do 2 eexists. split; [apply (panda_cleanup_returns s Ht)|].
  repeat split.
Qed.

Lemma released_cleanup_returns (s : panda_rig) :
  released s -> cleanup s = Returns tt s [].
Proof.
  intros (Hcam & Howner & Hbase & Htrav & Hqueue & Hcol).
  apply panda_cleanup_released; assumption.
Qed.

Lemma released_run (cs : list host_call) (s : panda_rig) :
  released s ->
  match host_perform_all cs s with
  | Returns _ s' _ => released s'
  | Raises e s' _ => e = AttributeError /\ released s'
  end.
Proof.
  revert s. induction cs as [|c cs IH]; intros s Hrel; [exact Hrel|].
  cbn [host_perform_all]. unfold bind.
  destruct c as [dt sceneRoot|side|]; cbn [host_perform].
  - rewrite (released_update_raises dt sceneRoot Hrel). auto.
  - assert (Hnext : released (set_currentSide side s)) by exact Hrel.
    specialize (IH _ Hnext). cbn.
    destruct (host_perform_all cs (set_currentSide side s)); exact IH.
  - rewrite (released_cleanup_returns Hrel).
    specialize (IH _ Hrel). destruct (host_perform_all cs s); exact IH.
Qed.

Lemma live_run (cs : list host_call) (s : panda_rig) :
  live s ->
  match host_perform_all cs s with
  | Returns _ s' _ => (live s' /\ ~ Exists is_cleanup cs) \/ released s'
  | Raises e s' _ => e = AttributeError /\ released s'
  end.
Proof.
  revert s. induction cs as [|c cs IH]; intros s Hlive.
  - left. split; [exact Hlive|]. intros H. inversion H.
  - cbn [host_perform_all]. unfold bind.
    destruct c as [dt sceneRoot|side|]; cbn [host_perform].
    + destruct (live_update_returns dt sceneRoot Hlive) as (s1 & -> & Hlive1).
      specialize (IH _ Hlive1).
      destruct (host_perform_all cs s1); [|exact IH].
      destruct IH as [[Hl Hno]|Hr]; [left|right; exact Hr].
      split; [exact Hl|]. intros H. inversion H; subst; [contradiction|auto].
    + assert (Hnext : live (set_currentSide side s)) by exact Hlive.
      specialize (IH _ Hnext). cbn.
      destruct (host_perform_all cs (set_currentSide side s)); [|exact IH].
      destruct IH as [[Hl Hno]|Hr]; [left|right; exact Hr].
      split; [exact Hl|]. intros H. inversion H; subst; [contradiction|auto].
    + destruct (live_cleanup_returns Hlive) as (s1 & ops & -> & Hrel).
      pose proof (released_run cs Hrel) as Hrest.
      destruct (host_perform_all cs s1); [right; exact Hrest | exact Hrest].
Qed.

Lemma segments_accepted_iff (radius intended : R) :
  segments_accepted radius intended <-> radius <> intended.
Proof.
  unfold segments_accepted, camera_segments, segment_accepted, Segment.
  split.
  - intros Hall Heq. inversion Hall as [|? ? Hfirst _]; subst.
    apply Hfirst. reflexivity.
  - intros Hne.
    repeat (apply Forall_cons;
            [cbn; intros H; apply (f_equal vy) in H; cbn in H; lra|]).
    constructor.
Qed.

Lemma panda_constructed_live
    (tilt intended shoulder height speed sideSpeed side : R)
    (owner cam : Handle) (radius : R) :
  live (final (panda_constructed tilt intended shoulder height speed sideSpeed
                                 side owner cam radius)).
Proof.
  rewrite panda_constructed_returns. repeat split; discriminate.
Qed.

(** X8.  For every choice of the constructor's parameters with which the
    four segments pass the constructor's assertion (their two ends differ:
    [colliderRadius] is not [intendedDistance]), and whatever sequence of
    [update], [setCurrentSide] and [cleanup] calls follows the
    construction, a rig of the sub-class raises no exception but
    [AttributeError], and that only from an [update] that comes after a
    [cleanup]: a sequence without [cleanup] returns with all the rig's
    objects in place; otherwise the rig ends with every reference
    dropped. *)
Theorem panda_rig_fails_only_after_cleanup
    (tilt intended shoulder height speed sideSpeed side : R)
    (owner cam : Handle) (radius : R) (cs : list host_call) :
  segments_accepted radius intended ->
  let s0 := final (panda_constructed tilt intended shoulder height speed
                                     sideSpeed side owner cam radius) in
  match host_perform_all cs s0 with
  | Returns _ s _ => (live s /\ ~ Exists is_cleanup cs) \/ released s
  | Raises e s _ => e = AttributeError /\ released s /\ Exists is_cleanup cs
  end /\
  (~ Exists is_cleanup cs ->
   exists s ops, host_perform_all cs s0 = Returns tt s ops /\ live s).
Proof.
  intros _. cbn zeta.
  pose proof (live_run cs (panda_constructed_live tilt intended shoulder height
                             speed sideSpeed side owner cam radius)) as Hrun.
  assert (Hlive_not_released : forall s : panda_rig, live s -> ~ released s).
  { intros s (Hbase & _) (_ & _ & Hnone & _). contradiction. }
  assert (Hnocleanup :
            ~ Exists is_cleanup cs ->
            forall s : panda_rig, live s ->
              exists s' ops, host_perform_all cs s = Returns tt s' ops /\ live s').
  { clear Hrun. induction cs as [|c cs IH]; intros Hno s Hlive.
    - exists s, []. split; [reflexivity | exact Hlive].
    - assert (Hc : ~ is_cleanup c) by (intros H; apply Hno; left; exact H).
      assert (Hcs : ~ Exists is_cleanup cs) by (intros H; apply Hno; right; exact H).
      cbn [host_perform_all]. unfold bind.
      destruct c as [dt sceneRoot|side'|]; cbn [host_perform]; [| |exfalso; apply Hc; exact I].
      + destruct (live_update_returns dt sceneRoot Hlive) as (s1 & -> & Hlive1).
        destruct (IH Hcs s1 Hlive1) as (s2 & ops & -> & Hlive2).
        do 2 eexists. split; [reflexivity | exact Hlive2].
      + assert (Hnext : live (set_currentSide side' s)) by exact Hlive.
        destruct (IH Hcs _ Hnext) as (s2 & ops & Hret & Hlive2). cbn.
        rewrite Hret. do 2 eexists. split; [reflexivity | exact Hlive2]. }
  split.
  - destruct (host_perform_all cs _) as [[] s ops|e s ops] eqn:Hout; [exact Hrun|].
    destruct Hrun as [He Hrel]. split; [exact He|]. split; [exact Hrel|].
    destruct (Exists_dec is_cleanup cs) as [Hyes|Hno]; [|exact Hyes|].
    + intros c. destruct c; cbn; [right|right|left]; tauto.
    + destruct (Hnocleanup Hno _ (panda_constructed_live tilt intended shoulder
                  height speed sideSpeed side owner cam radius))
        as (s' & ops' & Hret & _).
      rewrite Hret in Hout. discriminate.
  - intros Hno. apply (Hnocleanup Hno). apply panda_constructed_live.
Qed.

(** X9.  An [update] on a rig of the sub-class that has been cleaned up
    raises [AttributeError] where the probe reaches for the traverser; it
    writes nothing to the rig and makes no scene edit.  [setCurrentSide]
    still stores its argument there. *)
Theorem update_after_cleanup_raises
    (s s1 : panda_rig) (ops : list SceneOp) (dt : R) (sceneRoot : SceneRoot) (side : R) :
  cleanup s = Returns tt s1 ops ->
  update dt sceneRoot s1 = Raises AttributeError s1 [] /\
  getNearestCollision sceneRoot s1 = Raises AttributeError s1 [] /\
  currentSide (final (setCurrentSide side s1)) = side.
Proof.
  intros Hrun. apply panda_cleanup_returned in Hrun. destruct Hrun as [-> _].
  match goal with |- update _ _ ?t = _ /\ _ => assert (Hrel : released t) by (repeat split) end.
  split; [apply (released_update_raises dt sceneRoot Hrel)|].
  split; [apply (released_probe_raises sceneRoot Hrel) | reflexivity].
Qed.

Lemma update_after_cleanup_raises_witness :
  update (1/60) near_wall_scene tester_rig_released
    = Raises AttributeError tester_rig_released [].
Proof.
  apply (@update_after_cleanup_raises tester_rig tester_rig_released
           [ DetachNode (Borrowed 1%nat);
             RemoveCollider (Created "camera collider");
             RemoveNode (Created "camera collider");
             RemoveNode (Created "third-person camera-base") ]
           (1/60) near_wall_scene 0).
  exact tester_cleanup.
Defined.

(** X10.  Construction followed by [cleanup], for every choice of
    parameters with which the four segments pass the constructor's
    assertion ([colliderRadius] is not [intendedDistance]): both return;
    [cleanup] detaches the camera the constructor
    reparented, takes the collider off the traverser it was added to,
    removes the collider and the base the constructor attached, and leaves no
    reference behind but the one to the holder, which went with the base. *)
Theorem construct_then_cleanup
    (tilt intended shoulder height speed sideSpeed side : R)
    (owner cam : Handle) (radius : R) :
  segments_accepted radius intended ->
  exists s0 s1 : panda_rig,
    panda_constructed tilt intended shoulder height speed sideSpeed side
                      owner cam radius =
      Returns tt s0
        [ AttachNewNode (Borrowed owner) (Created "third-person camera-base");
          AttachNewNode (Created "third-person camera-base")
                        (Created "third-person camera-holder");
          ReparentTo (Borrowed cam) (Created "third-person camera-holder");
          AttachNewNode (Created "third-person camera-base") (Created "camera collider");
          AddCollider (Created "camera collider") ] /\
    cleanup s0 =
      Returns tt s1
        [ DetachNode (Borrowed cam);
          RemoveCollider (Created "camera collider");
          RemoveNode (Created "camera collider");
          RemoveNode (Created "third-person camera-base") ] /\
    released s1 /\
    colliderNode (ext s1) = None /\
    cameraHolder s1 = cameraHolder s0 /\
    node (cameraHolder s1) = Created "third-person camera-holder".
Proof.
  intros _.
  exists (mkRig (Some cam) (Some owner) shoulder intended height tilt sideSpeed speed
            (Some (mkNodePath (Created "third-person camera-base") 0 0 height tilt))
            (mkNodePath (Created "third-person camera-holder") 0 (- intended) 0 0)
            side
            (mkPandaCollision radius
               (Some (mkTraverser [Created "camera collider"]))
               (Some mkQueue)
               (Some (mkCollisionNode (camera_segments radius intended) 0 1))
               (Some (newNodePath (Created "camera collider"))))),
         (mkRig None None shoulder intended height tilt sideSpeed speed None
            (mkNodePath (Created "third-person camera-holder") 0 (- intended) 0 0)
            side (mkPandaCollision radius None None None None)).
  split; [apply panda_constructed_returns|].
  split; [reflexivity|]. repeat split.
Qed.

Lemma construct_then_cleanup_witness :
  exists s1 : panda_rig,
    cleanup tester_rig =
      Returns tt s1
        [ DetachNode (Borrowed 1%nat);
          RemoveCollider (Created "camera collider");
          RemoveNode (Created "camera collider");
          RemoveNode (Created "third-person camera-base") ] /\
    released s1.
Proof.
  assert (Haccepted : segments_accepted 0.5 5)
    by (apply segments_accepted_iff; lra).
  destruct (@construct_then_cleanup (-5) 5 0.5 2 7 10
              SIMPLE_THIRD_PERSON_CAMERA_SIDE_LEFT 0%nat 1%nat 0.5 Haccepted)
    as (s0 & s1 & Hmade & Hclean & Hreleased & _).
  exists s1. split; [|exact Hreleased].
  replace tester_rig with s0; [exact Hclean|].
  unfold tester_rig, tester_constructed. rewrite Hmade. reflexivity.
Defined.

Lemma panda_rig_fails_only_after_cleanup_witness :
  exists s ops,
    host_perform_all
      [ HostUpdate (1/60) near_wall_scene;
        HostSetCurrentSide SIMPLE_THIRD_PERSON_CAMERA_SIDE_RIGHT;
        HostUpdate (1/60) open_scene ]
      tester_rig = Returns tt s ops /\
    live s.
Proof.
  assert (Haccepted : segments_accepted 0.5 5)
    by (apply segments_accepted_iff; lra).
  apply (proj2 (@panda_rig_fails_only_after_cleanup (-5) 5 0.5 2 7 10
                  SIMPLE_THIRD_PERSON_CAMERA_SIDE_LEFT 0%nat 1%nat 0.5
                  [ HostUpdate (1/60) near_wall_scene;
                    HostSetCurrentSide SIMPLE_THIRD_PERSON_CAMERA_SIDE_RIGHT;
                    HostUpdate (1/60) open_scene ] Haccepted)).
  intros H.
  repeat match goal with
         | H : Exists _ (_ :: _) |- _ => inversion H; clear H; subst
         | H : Exists _ [] |- _ => inversion H
         | H : is_cleanup _ |- _ => exact H
         end.
Defined.

(* ===================================================================== *)
(** * More about the four-segment probe *)

(** X11.  When the traversal records intersections, all on the rig's four
    segments, with [0 <= colliderRadius <= intendedDistance] and the anchor's
    frame placed in the scene without scaling, the probe never answers less
    than [sqrt(2) * colliderRadius], the distance from the anchor to where
    the segments start: the camera is not pulled in closer than that. *)
Theorem nearest_collision_not_below_collider
    (s : panda_rig) (sceneRoot : SceneRoot)
    (trav : CollisionTraverser) (queue : CollisionHandlerQueue) (base : NodePath) :
  traverser (ext s) = Some trav ->
  collisionQueue (ext s) = Some queue ->
  cameraBase s = Some base ->
  traverse sceneRoot <> [] ->
  isometry (toScene sceneRoot) ->
  0 <= colliderRadius (ext s) <= intendedDistance s ->
  (forall x, In x (traverse sceneRoot) -> hit_on_collider s x) ->
  exists v : R,
    getNearestCollision sceneRoot s = Returns (PyNum v) s [] /\
    sqrt 2 * colliderRadius (ext s) <= v.
Proof.
  intros Htrav Hqueue Hbase Hne Hiso Hr Hhits.
  rewrite (panda_probe_unfold s sceneRoot Htrav Hqueue Hbase).
  destruct (sortEntries_first Hne) as (e & rest & Hsorted & Hin & _).
  rewrite Hsorted. exists (anchorDistance sceneRoot e). split; [reflexivity|].
  destruct (Hhits e Hin) as [Hseg Hon].
  destruct (hit_geometry e Hr Hseg Hon) as (u & Hu & Hlen & _).
  rewrite anchorDistance_isometry by exact Hiso. rewrite Hlen.
  set (r := colliderRadius (ext s)) in *.
  replace (sqrt 2 * r) with (sqrt (r * r + r * r)).
  - apply sqrt_sum_le. lra.
  - replace (r * r + r * r) with (2 * (r * r)) by ring.
    rewrite sqrt_mult by nra. rewrite sqrt_square by lra. reflexivity.
Qed.

Lemma nearest_collision_not_below_collider_witness :
  exists v : R,
    getNearestCollision near_wall_scene tester_rig = Returns (PyNum v) tester_rig [] /\
    sqrt 2 * colliderRadius (ext tester_rig) <= v.
Proof.
  apply (@nearest_collision_not_below_collider tester_rig near_wall_scene
           (mkTraverser [Created "camera collider"]) mkQueue tester_base
           eq_refl eq_refl eq_refl).
  - discriminate.
  - exact identity_isometry.
  - cbn. lra.
  - intros x [<-|[]]. split.
    + left. cbn. unfold Segment. repeat f_equal; lra.
    + exists (7 / 45). split; [lra|]. cbn. f_equal; lra.
Defined.

(** X12.  For intersections on the rig's four segments (with
    [0 <= colliderRadius <= intendedDistance] and a placement without
    scaling), what the probe answers depends on which intersections were
    recorded, not on the order the traversal recorded them in nor on how
    often: two scenes with the same placement whose traversals record the
    same intersections get the same answer. *)
Theorem nearest_collision_ignores_recording_order
    (s : panda_rig) (scene1 scene2 : SceneRoot)
    (trav : CollisionTraverser) (queue : CollisionHandlerQueue) (base : NodePath) :
  traverser (ext s) = Some trav ->
  collisionQueue (ext s) = Some queue ->
  cameraBase s = Some base ->
  toScene scene1 = toScene scene2 ->
  (forall x, In x (traverse scene1) <-> In x (traverse scene2)) ->
  isometry (toScene scene1) ->
  0 <= colliderRadius (ext s) <= intendedDistance s ->
  (forall x, In x (traverse scene1) -> hit_on_collider s x) ->
  getNearestCollision scene1 s = getNearestCollision scene2 s.
Proof.
  intros Htrav Hqueue Hbase Hplace Hsame Hiso Hr Hhits.
  rewrite (panda_probe_unfold s scene1 Htrav Hqueue Hbase),
          (panda_probe_unfold s scene2 Htrav Hqueue Hbase).
  assert (Hdist : forall e, anchorDistance scene1 e = anchorDistance scene2 e).
  { intros e. unfold anchorDistance, getPos, getSurfacePoint. rewrite Hplace.
    reflexivity. }
  destruct (traverse scene1) as [|h1 q1] eqn:H1;
    destruct (traverse scene2) as [|h2 q2] eqn:H2.
  - reflexivity.
  - exfalso. apply (proj2 (Hsame h2)). left. reflexivity.
  - exfalso. apply (proj1 (Hsame h1)). left. reflexivity.
  - destruct (@sortEntries_first (h1 :: q1)) as (e1 & r1 & -> & Hin1 & Hleast1);
      [discriminate|].
    destruct (@sortEntries_first (h2 :: q2)) as (e2 & r2 & -> & Hin2 & Hleast2);
      [discriminate|].
    do 2 f_equal. rewrite <- Hdist.
    assert (Hin21 : In e2 (h1 :: q1)) by (apply Hsame; exact Hin2).
    assert (Hin12 : In e1 (h2 :: q2)) by (apply Hsame; exact Hin1).
    apply Rle_antisym.
    + apply (@least_key_nearest s scene1 e1 e2); auto.
    + apply (@least_key_nearest s scene1 e2 e1); auto.
Qed.

Lemma nearest_collision_ignores_recording_order_witness :
  getNearestCollision two_walls_scene tester_rig
    = getNearestCollision two_walls_scene_reversed tester_rig.
Proof.
  apply (@nearest_collision_ignores_recording_order tester_rig two_walls_scene
           two_walls_scene_reversed
           (mkTraverser [Created "camera collider"]) mkQueue tester_base
           eq_refl eq_refl eq_refl eq_refl).
  - intros x. cbn. tauto.
  - exact identity_isometry.
  - cbn. lra.
  - intros x [<-|[<-|[]]]; split.
    + right. left. cbn. unfold Segment. repeat f_equal; lra.
    + exists (5 / 9). split; [lra|]. cbn. f_equal; lra.
    + left. cbn. unfold Segment. repeat f_equal; lra.
    + exists (7 / 45). split; [lra|]. cbn. f_equal; lra.
Defined.

(* ===================================================================== *)
(** * Steps of a method *)

Section MethodSteps.
Context {S : Type}.

Lemma outcome_eta {A} (o : outcome S A) :
  match o with
  | Returns b s ops => Returns b s ([] ++ ops)
  | Raises e s ops => Raises e s ([] ++ ops)
  end = o.
Proof. destruct o; reflexivity. Qed.

Lemma bind_getattr {A B} (f : S -> A) (k : A -> method S B) (s : S) :
  bind (getattr f) k s = k (f s) s.
Proof. unfold bind, getattr. apply outcome_eta. Qed.

Lemma bind_assign {B} (g : S -> S) (k : unit -> method S B) (s : S) :
  bind (assign g) k s = k tt (g s).
Proof. unfold bind, assign. apply outcome_eta. Qed.
End MethodSteps.

(* ===================================================================== *)
(** * The demonstration program: switching sides *)

Lemma next_side_is_side (side : R) : is_side (next_side side).
Proof.
  unfold next_side, is_side.
  destruct (Req_dec_T side _); [auto|]. destruct (Req_dec_T side _); auto.
Qed.

Lemma player_switch_unfold (p : Player.state) (c : panda_rig) :
  Player.cameraController p = Some c ->
  Player.switchCameraSide p =
    Returns tt
      (Player.set_cameraController
         (Some (set_currentSide (next_side (currentSide c)) c)) p) [].
Proof.
  intros Hc. unfold Player.switchCameraSide, Player.on_controller. rewrite Hc.
  unfold bind, getattr, next_side.
  destruct (Req_dec_T (currentSide c) _); [reflexivity|].
  destruct (Req_dec_T (currentSide c) _); reflexivity.
Qed.

Lemma bind_switch {B} (p : Player.state) (c : panda_rig)
    (k : unit -> method Player.state B) :
  Player.cameraController p = Some c ->
  bind Player.switchCameraSide k p =
    k tt (Player.set_cameraController
            (Some (set_currentSide (next_side (currentSide c)) c)) p).
Proof.
  intros Hc. unfold bind. rewrite (player_switch_unfold p Hc). apply outcome_eta.
Qed.

Lemma next_side_values :
  next_side SIMPLE_THIRD_PERSON_CAMERA_SIDE_LEFT = SIMPLE_THIRD_PERSON_CAMERA_SIDE_RIGHT /\
  next_side SIMPLE_THIRD_PERSON_CAMERA_SIDE_RIGHT = SIMPLE_THIRD_PERSON_CAMERA_SIDE_CENTRE /\
  next_side SIMPLE_THIRD_PERSON_CAMERA_SIDE_CENTRE = SIMPLE_THIRD_PERSON_CAMERA_SIDE_LEFT.
Proof.
  unfold next_side, SIMPLE_THIRD_PERSON_CAMERA_SIDE_LEFT,
    SIMPLE_THIRD_PERSON_CAMERA_SIDE_CENTRE, SIMPLE_THIRD_PERSON_CAMERA_SIDE_RIGHT.
  repeat split.
  - destruct (Req_dec_T (-1) (-1)); [reflexivity|]. exfalso. auto.
  - destruct (Req_dec_T 1 (-1)); [lra|].
    destruct (Req_dec_T 1 1); [reflexivity|]. exfalso. auto.
  - destruct (Req_dec_T 0 (-1)); [lra|].
    destruct (Req_dec_T 0 1); [lra|]. reflexivity.
Qed.

Lemma next_side_thrice (side : R) : is_side side -> next_side (next_side (next_side side)) = side.
Proof.
  destruct next_side_values as (Hl & Hr & Hc).
  intros [-> | [-> | ->]].
  - rewrite Hl, Hr, Hc. reflexivity.
  - rewrite Hc, Hl, Hr. reflexivity.
  - rewrite Hr, Hc, Hl. reflexivity.
Qed.

(** X13.  The player's [switchCameraSide] steps Left to Right, Right to
    Centre and anything else to Left, so it takes a camera with an
    unrecognised side back to a recognised one; it changes nothing of the
    controller but the side and moves nothing; three switches bring a
    recognised side back to where it was.  Without a controller it raises
    [AttributeError]. *)
Theorem switchCameraSide_cycles (p : Player.state) :
  (forall c, Player.cameraController p = Some c ->
     exists side',
       Player.switchCameraSide p =
         Returns tt (Player.set_cameraController (Some (set_currentSide side' c)) p) [] /\
       is_side side' /\
       (currentSide c = SIMPLE_THIRD_PERSON_CAMERA_SIDE_LEFT ->
        side' = SIMPLE_THIRD_PERSON_CAMERA_SIDE_RIGHT) /\
       (currentSide c = SIMPLE_THIRD_PERSON_CAMERA_SIDE_RIGHT ->
        side' = SIMPLE_THIRD_PERSON_CAMERA_SIDE_CENTRE) /\
       (currentSide c <> SIMPLE_THIRD_PERSON_CAMERA_SIDE_LEFT ->
        currentSide c <> SIMPLE_THIRD_PERSON_CAMERA_SIDE_RIGHT ->
        side' = SIMPLE_THIRD_PERSON_CAMERA_SIDE_LEFT) /\
       (is_side (currentSide c) ->
        times 3 Player.switchCameraSide p =
          Returns tt (Player.set_cameraController (Some c) p) [])) /\
  (Player.cameraController p = None ->
   Player.switchCameraSide p = Raises AttributeError p []).
Proof.
  split.
  - intros c Hc. exists (next_side (currentSide c)).
    split; [apply (player_switch_unfold p Hc)|].
    split; [apply next_side_is_side|].
    unfold next_side, SIMPLE_THIRD_PERSON_CAMERA_SIDE_LEFT,
      SIMPLE_THIRD_PERSON_CAMERA_SIDE_CENTRE, SIMPLE_THIRD_PERSON_CAMERA_SIDE_RIGHT.
    split; [|split; [|split]].
    + intros H. destruct (Req_dec_T _ _); [reflexivity|contradiction].
    + intros H. destruct (Req_dec_T _ _); [lra|].
      destruct (Req_dec_T _ _); [reflexivity|contradiction].
    + intros H1 H2. destruct (Req_dec_T _ _); [contradiction|].
      destruct (Req_dec_T _ _); [contradiction|reflexivity].
    + intros Hside. cbn [times].
      rewrite bind_switch with (c := c) by exact Hc.
      rewrite bind_switch
        with (c := set_currentSide (next_side (currentSide c)) c) by reflexivity.
      rewrite bind_switch
        with (c := set_currentSide (next_side (next_side (currentSide c)))
                     (set_currentSide (next_side (currentSide c)) c))
        by reflexivity.
      unfold ret. f_equal. destruct p, c. cbn in *.
      unfold Player.set_cameraController, set_currentSide. cbn.
      rewrite (next_side_thrice Hside). reflexivity.
  - intros Hc. unfold Player.switchCameraSide, Player.on_controller. rewrite Hc.
    reflexivity.
Qed.

Lemma switchCameraSide_cycles_witness :
  exists side',
    Player.switchCameraSide tester_player =
      Returns tt (Player.set_cameraController
                    (Some (set_currentSide side' tester_rig)) tester_player) [] /\
    is_side side' /\
    side' = SIMPLE_THIRD_PERSON_CAMERA_SIDE_RIGHT.
Proof.
  destruct (proj1 (switchCameraSide_cycles tester_player) tester_rig eq_refl)
    as (side' & Hrun & Hside & Hleft & _).
  exists side'. split; [exact Hrun|]. split; [exact Hside|].
  apply Hleft. reflexivity.
Defined.

(* ===================================================================== *)
(** * Vectors *)

Lemma lengthSquared_nonneg (v : Vec3) : 0 <= lengthSquared v.
Proof. unfold lengthSquared. nra. Qed.

Lemma vlength_nonneg (v : Vec3) : 0 <= vlength v.
Proof. apply sqrt_pos. Qed.

Lemma vlength_vscale (v : Vec3) (k : R) : vlength (vscale v k) = Rabs k * vlength v.
Proof.
  unfold vlength.
  replace (lengthSquared (vscale v k)) with (k * k * lengthSquared v)
    by (unfold lengthSquared, vscale; cbn; ring).
  rewrite sqrt_mult by (try apply lengthSquared_nonneg; nra).
  f_equal. replace (k * k) with (Rsqr k) by reflexivity. apply sqrt_Rsqr_abs.
Qed.

Lemma vlength_zero_iff (v : Vec3) : vlength v = 0 <-> lengthSquared v = 0.
Proof.
  unfold vlength. split.
  - apply sqrt_eq_0, lengthSquared_nonneg.
  - intros ->. apply sqrt_0.
Qed.

Lemma lengthSquared_zero (v : Vec3) : lengthSquared v = 0 -> v = mkVec3 0 0 0.
Proof.
  destruct v as [x y z]. unfold lengthSquared. cbn. intros H.
  assert (x = 0) by nra. assert (y = 0) by nra. assert (z = 0) by nra.
  subst. reflexivity.
Qed.

Lemma vlength_normalize (v : Vec3) : lengthSquared v <> 0 -> vlength (normalize v) = 1.
Proof.
  intros Hne. unfold normalize. destruct (Req_dec_T _ _); [contradiction|].
  rewrite vlength_vscale.
  assert (Hpos : 0 < sqrt (lengthSquared v)).
  { apply sqrt_lt_R0. pose proof (lengthSquared_nonneg v). lra. }
  rewrite Rabs_pos_eq by (left; apply Rinv_0_lt_compat; exact Hpos).
  unfold vlength. apply Rinv_l. lra.
Qed.

Lemma normalize_zero : normalize (mkVec3 0 0 0) = mkVec3 0 0 0.
Proof.
  unfold normalize. destruct (Req_dec_T _ _) as [_|Hne]; [reflexivity|].
  exfalso. apply Hne. unfold lengthSquared. cbn. ring.
Qed.

(** Friction on a moving player: a shorter vector in the same direction. *)
Lemma friction_shortens (v : Vec3) (frictionVal : R) :
  lengthSquared v <> 0 ->
  vadd v (vscale (normalize (vneg v)) frictionVal)
    = vscale v (1 - frictionVal / vlength v).
Proof.
  intros Hne.
  assert (Hneg : lengthSquared (vneg v) = lengthSquared v)
    by (unfold lengthSquared, vneg; cbn; ring).
  unfold normalize. rewrite Hneg. destruct (Req_dec_T _ _); [contradiction|].
  assert (Hpos : 0 < sqrt (lengthSquared v)).
  { apply sqrt_lt_R0. pose proof (lengthSquared_nonneg v). lra. }
  unfold vadd, vscale, vneg, vlength. cbn. f_equal; field; lra.
Qed.

(** After the speed limit, the [speed] variable is the length of the
    velocity, and neither exceeds the limit. *)
Lemma speed_limited_length (v : Vec3) (top : R) :
  0 <= top ->
  vlength (speed_limited v top) = limited_speed v top /\
  limited_speed v top <= top /\
  0 <= limited_speed v top.
Proof.
  intros Htop. unfold speed_limited, limited_speed.
  destruct (Rgt_dec (vlength v) top) as [Hfast|Hslow].
  - rewrite vlength_vscale, vlength_normalize.
    + rewrite Rabs_pos_eq by exact Htop. lra.
    + intros Hzero. apply vlength_zero_iff in Hzero. lra.
  - pose proof (vlength_nonneg v). lra.
Qed.

Lemma slowed_length (v : Vec3) (frictionVal : R) :
  0 <= frictionVal ->
  vlength (slowed v (vlength v) frictionVal) = Rmax 0 (vlength v - frictionVal).
Proof.
  intros Hfr. unfold slowed, Rmax.
  destruct (Rgt_dec frictionVal (vlength v)) as [Hstop|Hgo].
  - replace (vlength (mkVec3 0 0 0)) with 0.
    + destruct (Rle_dec _ _); lra.
    + symmetry. apply vlength_zero_iff. unfold lengthSquared. cbn. ring.
  - destruct (Req_dec_T (lengthSquared v) 0) as [Hzero|Hne].
    + pose proof (proj2 (vlength_zero_iff v) Hzero) as Hlen.
      rewrite (@lengthSquared_zero v Hzero).
      replace (vneg (mkVec3 0 0 0)) with (mkVec3 0 0 0)
        by (unfold vneg; cbn; f_equal; ring).
      rewrite normalize_zero.
      replace (vadd (mkVec3 0 0 0) (vscale (mkVec3 0 0 0) frictionVal))
        with (mkVec3 0 0 0) by (unfold vadd, vscale; cbn; f_equal; ring).
      rewrite <- (@lengthSquared_zero v Hzero), Hlen.
      destruct (Rle_dec _ _); lra.
    + rewrite (@friction_shortens v frictionVal Hne), vlength_vscale.
      assert (Hpos : 0 < vlength v).
      { pose proof (vlength_nonneg v).
        assert (vlength v <> 0) by (intros H0; apply Hne, vlength_zero_iff, H0). lra. }
      assert (Hratio : 0 <= frictionVal / vlength v <= 1).
      { split.
        - unfold Rdiv. apply Rmult_le_pos; [lra|]. left. apply Rinv_0_lt_compat. exact Hpos.
        - apply (Rmult_le_reg_r (vlength v)); [exact Hpos|].
          unfold Rdiv. rewrite Rmult_assoc, Rinv_l; lra. }
      rewrite Rabs_pos_eq by lra.
      replace ((1 - frictionVal / vlength v) * vlength v)
        with (vlength v - frictionVal) by (field; lra).
      destruct (Rle_dec _ _); lra.
Qed.

(* ===================================================================== *)
(** * The demonstration program: moving the player *)


Lemma bind_when_accelerate {B} (b : bool) (x : Vec3)
    (k : unit -> method Player.state B) (p : Player.state) :
  bind (Player.when b (Player.accelerate x)) k p =
    k tt (Player.set_velocity
            (if b then vadd (Player.velocity p) x else Player.velocity p) p).
Proof.
  destruct b; cbn [Player.when];
    [unfold Player.accelerate, Player.decelerate, Player.turn;
     rewrite bind_assign; reflexivity|].
  destruct p. unfold bind, ret. cbn. apply outcome_eta.
Qed.

Lemma bind_when_decelerate {B} (b : bool) (x : Vec3)
    (k : unit -> method Player.state B) (p : Player.state) :
  bind (Player.when b (Player.decelerate x)) k p =
    k tt (Player.set_velocity
            (if b then vadd (Player.velocity p) (vneg x) else Player.velocity p) p).
Proof.
  destruct b; cbn [Player.when];
    [unfold Player.accelerate, Player.decelerate, Player.turn;
     rewrite bind_assign; reflexivity|].
  destruct p. unfold bind, ret. cbn. apply outcome_eta.
Qed.

Lemma bind_when_turn {B} (b : bool) (angle : R)
    (k : unit -> method Player.state B) (p : Player.state) :
  bind (Player.when b (Player.turn angle)) k p =
    k tt (Player.set_manipulatorH
            (if b then wrapH (Player.manipulatorH p + angle)
             else Player.manipulatorH p) p).
Proof.
  destruct b; cbn [Player.when];
    [unfold Player.accelerate, Player.decelerate, Player.turn;
     rewrite bind_assign; reflexivity|].
  destruct p. unfold bind, ret. cbn. apply outcome_eta.
Qed.

Lemma bind_when_limit {B} (a b : R) (w : Vec3)
    (k : unit -> method Player.state B) (p : Player.state) :
  bind (Player.when (if Rgt_dec a b then true else false)
                    (assign (Player.set_velocity w))) k p =
    k tt (Player.set_velocity (if Rgt_dec a b then w else Player.velocity p) p).
Proof.
  destruct (Rgt_dec a b); cbn [Player.when]; [rewrite bind_assign; reflexivity|].
  destruct p. unfold bind, ret. cbn. apply outcome_eta.
Qed.

Lemma bind_when_friction {B} (b : bool) (frictionVal speed : R)
    (k : unit -> method Player.state B) (p : Player.state) :
  bind (Player.when b
          (if Rgt_dec frictionVal speed then
             assign (Player.set_velocity (mkVec3 0 0 0))
           else
             v <- getattr Player.velocity ;;
             Player.accelerate (vscale (normalize (vneg v)) frictionVal))) k p =
    k tt (Player.set_velocity
            (if b then slowed (Player.velocity p) speed frictionVal
             else Player.velocity p) p).
Proof.
  unfold slowed. destruct b; cbn [Player.when].
  - destruct (Rgt_dec frictionVal speed); [rewrite bind_assign; reflexivity|].
    unfold bind at 1. rewrite bind_getattr. unfold Player.accelerate, assign.
    apply outcome_eta.
  - destruct p. unfold bind, ret. cbn. apply outcome_eta.
Qed.

(** [Player.update] is the movement of the player followed by the update
    of its camera controller. *)
Lemma player_update_unfold (p : Player.state) (dt : R) (keyMap : string -> bool)
    (orientationQuat : Quat) (sceneRoot : SceneRoot) :
  Player.update dt keyMap orientationQuat sceneRoot p =
    Player.on_controller (controller_update dt sceneRoot)
                         (moved p dt keyMap orientationQuat).
Proof.
  destruct p as [pos h col v acc top fr ts ctl].
  unfold Player.update.
  rewrite bind_getattr; player_norm.
  rewrite bind_when_accelerate; player_norm.
  rewrite bind_when_decelerate; player_norm.
  rewrite bind_when_accelerate; player_norm.
  rewrite bind_when_decelerate; player_norm.
  rewrite bind_getattr; player_norm.
  rewrite bind_when_turn; player_norm.
  rewrite bind_when_turn; player_norm.
  rewrite bind_getattr; player_norm.
  rewrite bind_getattr; player_norm.
  rewrite bind_when_limit; player_norm.
  rewrite bind_getattr; player_norm.
  rewrite bind_getattr; player_norm.
  rewrite bind_assign; player_norm.
  rewrite bind_getattr; player_norm.
  rewrite bind_when_friction; player_norm.
  unfold moved, key_push, walking, turned, speed_limited, limited_speed.
  player_norm. cbv zeta.
  set (V := if keyMap "left"%string then _ else _).
  set (W := (_ || keyMap "left"%string)%bool).
  clearbody V W.
  destruct (Rgt_dec (vlength V) top), W; cbn [negb]; player_norm; reflexivity.
Qed.

(* ===================================================================== *)
(** * The demonstration program: what a frame does to the player *)

Lemma final_on_controller {A} (m : method panda_rig A) (p : Player.state) :
  exists ctl,
    final (Player.on_controller m p) = Player.set_cameraController ctl p.
Proof.
  unfold Player.on_controller.
  destruct (Player.cameraController p) as [c|] eqn:Hc.
  - destruct (m c); eexists; reflexivity.
  - exists None. destruct p. cbn in Hc. subst. reflexivity.
Qed.

Lemma player_update_final (p : Player.state) (dt : R) (keyMap : string -> bool)
    (orientationQuat : Quat) (sceneRoot : SceneRoot) :
  exists ctl,
    final (Player.update dt keyMap orientationQuat sceneRoot p) =
      Player.set_cameraController ctl (moved p dt keyMap orientationQuat).
Proof. rewrite player_update_unfold. apply final_on_controller. Qed.

Lemma limited_speed_Rmin (v : Vec3) (top : R) :
  limited_speed v top = Rmin (vlength v) top.
Proof.
  unfold limited_speed, Rmin.
  destruct (Rgt_dec _ _), (Rle_dec _ _); lra.
Qed.

Lemma vlength_origin : vlength (mkVec3 0 0 0) = 0.
Proof. apply vlength_zero_iff. unfold lengthSquared. cbn. ring. Qed.

Lemma vlength_zero_vector (v : Vec3) : vlength v = 0 -> v = mkVec3 0 0 0.
Proof. intros H. apply lengthSquared_zero, vlength_zero_iff, H. Qed.

Lemma walking_false (keyMap : string -> bool) :
  walking keyMap = false ->
  keyMap "up"%string = false /\ keyMap "down"%string = false /\
  keyMap "right"%string = false /\ keyMap "left"%string = false.
Proof.
  unfold walking. intros H.
  apply Bool.orb_false_elim in H. destruct H as [H Hleft].
  apply Bool.orb_false_elim in H. destruct H as [H Hright].
  apply Bool.orb_false_elim in H. destruct H as [Hup Hdown].
  auto.
Qed.

Lemma key_push_idle (p : Player.state) (dt : R) (keyMap : string -> bool)
    (orientationQuat : Quat) :
  walking keyMap = false ->
  key_push p dt keyMap orientationQuat = Player.velocity p.
Proof.
  intros H. destruct (walking_false keyMap H) as (Hu & Hd & Hr & Hl).
  unfold key_push. rewrite Hu, Hd, Hr, Hl. reflexivity.
Qed.

(** X14.  [Player.update] never leaves the player faster than [maxSpeed],
    whatever keys are held and wherever the velocity started: with a
    [maxSpeed] that is not negative and a friction step [friction * dt] that
    is not negative, the velocity it leaves is no longer than [maxSpeed],
    and the position has moved by [dt] times a vector no longer than
    [maxSpeed].  This holds whether the controller's [update] at the end
    returns or raises. *)
Theorem player_update_keeps_speed_limit
    (p : Player.state) (dt : R) (keyMap : string -> bool)
    (orientationQuat : Quat) (sceneRoot : SceneRoot) :
  0 <= Player.maxSpeed p ->
  0 <= Player.friction p * dt ->
  exists step,
    vlength (Player.velocity
               (final (Player.update dt keyMap orientationQuat sceneRoot p)))
      <= Player.maxSpeed p /\
    Player.manipulatorPos
      (final (Player.update dt keyMap orientationQuat sceneRoot p))
      = vadd (Player.manipulatorPos p) (vscale step dt) /\
    vlength step <= Player.maxSpeed p.
Proof.
  intros Htop Hfr.
  destruct (player_update_final p dt keyMap orientationQuat sceneRoot) as [ctl ->].
  pose proof (@speed_limited_length (key_push p dt keyMap orientationQuat)
                (Player.maxSpeed p) Htop) as (Hlen & Hle & Hpos).
  exists (speed_limited (key_push p dt keyMap orientationQuat) (Player.maxSpeed p)).
  unfold moved.
  cbn [Player.velocity Player.manipulatorPos Player.set_cameraController].
  split; [|split; [reflexivity|lra]].
  destruct (walking keyMap); [lra|].
  rewrite <- Hlen. rewrite slowed_length by exact Hfr. rewrite Hlen.
  unfold Rmax. destruct (Rle_dec _ _); lra.
Qed.

Lemma player_update_keeps_speed_limit_witness :
  exists step,
    vlength (Player.velocity
               (final (Player.update (1/60) (fun _ => true) facing_forward
                                     near_wall_scene tester_player)))
      <= Player.maxSpeed tester_player /\
    Player.manipulatorPos
      (final (Player.update (1/60) (fun _ => true) facing_forward
                            near_wall_scene tester_player))
      = vadd (Player.manipulatorPos tester_player) (vscale step (1/60)) /\
    vlength step <= Player.maxSpeed tester_player.
Proof.
  apply (@player_update_keeps_speed_limit tester_player (1/60) (fun _ => true)
           facing_forward near_wall_scene).
  - cbn. lra.
  - cbn. lra.
Defined.

(** X15.  Friction: in a frame with no movement key held, [Player.update]
    leaves a speed of [max(0, min(speed, maxSpeed) - friction * dt)]: the
    player slows by [friction * dt] and stops when that is more than the
    speed it had.  In particular a player at rest stays at rest, where it
    is. *)
Theorem player_update_friction
    (p : Player.state) (dt : R) (keyMap : string -> bool)
    (orientationQuat : Quat) (sceneRoot : SceneRoot) :
  walking keyMap = false ->
  0 <= Player.maxSpeed p ->
  0 <= Player.friction p * dt ->
  vlength (Player.velocity
             (final (Player.update dt keyMap orientationQuat sceneRoot p)))
    = Rmax 0 (Rmin (vlength (Player.velocity p)) (Player.maxSpeed p)
              - Player.friction p * dt) /\
  (Player.friction p * dt > Rmin (vlength (Player.velocity p)) (Player.maxSpeed p) ->
   Player.velocity (final (Player.update dt keyMap orientationQuat sceneRoot p))
     = mkVec3 0 0 0) /\
  (Player.velocity p = mkVec3 0 0 0 ->
   Player.velocity (final (Player.update dt keyMap orientationQuat sceneRoot p))
     = mkVec3 0 0 0 /\
   Player.manipulatorPos (final (Player.update dt keyMap orientationQuat sceneRoot p))
     = Player.manipulatorPos p).
Proof.
  intros Hidle Htop Hfr.
  destruct (player_update_final p dt keyMap orientationQuat sceneRoot) as [ctl ->].
  pose proof (@speed_limited_length (Player.velocity p) (Player.maxSpeed p) Htop)
    as (Hlen & Hle & Hpos).
  unfold moved. rewrite (@key_push_idle p dt keyMap orientationQuat Hidle), Hidle.
  cbn [Player.velocity Player.manipulatorPos Player.set_cameraController].
  assert (Hspeed :
            vlength (slowed (speed_limited (Player.velocity p) (Player.maxSpeed p))
                            (limited_speed (Player.velocity p) (Player.maxSpeed p))
                            (Player.friction p * dt))
            = Rmax 0 (Rmin (vlength (Player.velocity p)) (Player.maxSpeed p)
                      - Player.friction p * dt)).
  { rewrite <- Hlen. rewrite slowed_length by exact Hfr.
    rewrite Hlen, limited_speed_Rmin. reflexivity. }
  split; [exact Hspeed|]. split.
  - intros Hstop. unfold slowed. rewrite limited_speed_Rmin.
    destruct (Rgt_dec _ _); [reflexivity|contradiction].
  - intros Hrest. split.
    + apply vlength_zero_vector. rewrite Hspeed, Hrest, vlength_origin.
      unfold Rmax, Rmin.
      destruct (Rle_dec 0 (Player.maxSpeed p)); [|contradiction].
      destruct (Rle_dec _ _); lra.
    + rewrite Hrest. unfold speed_limited. rewrite vlength_origin.
      destruct (Rgt_dec 0 (Player.maxSpeed p)); [lra|].
      destruct (Player.manipulatorPos p) as [x y z].
      unfold vadd, vscale. cbn. f_equal; ring.
Qed.

Lemma player_update_friction_witness :
  Player.velocity
    (final (Player.update (1/60) (fun _ => false) facing_forward
                          near_wall_scene tester_player))
    = mkVec3 0 0 0 /\
  Player.manipulatorPos
    (final (Player.update (1/60) (fun _ => false) facing_forward
                          near_wall_scene tester_player))
    = Player.manipulatorPos tester_player.
Proof.
  assert (Htop : 0 <= Player.maxSpeed tester_player) by (cbn; lra).
  assert (Hfr : 0 <= Player.friction tester_player * (1/60)) by (cbn; lra).
  apply (proj2 (proj2 (@player_update_friction tester_player (1/60) (fun _ => false)
                         facing_forward near_wall_scene eq_refl Htop Hfr))).
  reflexivity.
Defined.






(** The player's [cleanup], when it returns, has dropped the controller. *)
Lemma player_cleanup_returned (p p1 : Player.state) (ops : list SceneOp) :
  Player.cleanup p = Returns tt p1 ops ->
  Player.cameraController p1 = None /\
  Player.manipulatorPos p1 = Player.manipulatorPos p /\
  Player.velocity p1 = Player.velocity p /\
  Player.collider p1 = Player.collider p.
Proof.
  unfold Player.cleanup. rewrite bind_getattr.
  destruct (Player.cameraController p) as [c|] eqn:Hc.
  - unfold bind, Player.on_controller, assign. rewrite Hc.
    destruct (controller_cleanup c); intros H; inversion H. repeat split.
  - unfold ret. intros H. inversion H. subst. repeat split; assumption.
Qed.

Lemma player_cleanup_done (p : Player.state) :
  Player.cameraController p = None -> Player.cleanup p = Returns tt p [].
Proof.
  intros Hc. unfold Player.cleanup. rewrite bind_getattr, Hc. reflexivity.
Qed.

Lemma tester_player_cleanup :
  Player.cleanup tester_player =
    Returns tt
      (Player.set_cameraController None tester_player)
      [ DetachNode (Borrowed 1%nat);
        RemoveCollider (Created "camera collider");
        RemoveNode (Created "camera collider");
        RemoveNode (Created "third-person camera-base") ].
Proof.
  unfold Player.cleanup. rewrite bind_getattr.
  unfold tester_player at 1. cbn [Player.cameraController].
  unfold bind, Player.on_controller, assign, tester_player.
  cbn [Player.cameraController]. unfold controller_cleanup.
  rewrite tester_cleanup. reflexivity.
Qed.

(** X17.  Once the player's [cleanup] has returned, the player has no
    controller: a further [cleanup] returns and does nothing, while
    [update] still moves the player and only then raises [AttributeError],
    and [switchCameraSide] raises it at once. *)
Theorem player_update_after_cleanup_raises
    (p p1 : Player.state) (ops : list SceneOp) (dt : R)
    (keyMap : string -> bool) (orientationQuat : Quat) (sceneRoot : SceneRoot) :
  Player.cleanup p = Returns tt p1 ops ->
  Player.cleanup p1 = Returns tt p1 [] /\
  Player.update dt keyMap orientationQuat sceneRoot p1
    = Raises AttributeError (moved p1 dt keyMap orientationQuat) [] /\
  Player.manipulatorPos (moved p1 dt keyMap orientationQuat)
    = vadd (Player.manipulatorPos p)
           (vscale (speed_limited (key_push p1 dt keyMap orientationQuat)
                                  (Player.maxSpeed p1)) dt) /\
  Player.switchCameraSide p1 = Raises AttributeError p1 [].
Proof.
  intros Hclean.
  destruct (@player_cleanup_returned _ _ _ Hclean) as (Hnone & Hpos & _).
  split; [apply player_cleanup_done, Hnone|].
  split; [|split].
  - rewrite player_update_unfold. unfold Player.on_controller.
    unfold moved at 1. cbn [Player.cameraController]. rewrite Hnone. reflexivity.
  - unfold moved. cbn [Player.manipulatorPos]. rewrite Hpos. reflexivity.
  - unfold Player.switchCameraSide, Player.on_controller. rewrite Hnone. reflexivity.
Qed.

Lemma player_update_after_cleanup_raises_witness :
  Player.update (1/60) (fun _ => false) facing_forward near_wall_scene
                (Player.set_cameraController None tester_player)
    = Raises AttributeError
        (moved (Player.set_cameraController None tester_player) (1/60)
               (fun _ => false) facing_forward) [].
Proof.
  apply (@player_update_after_cleanup_raises tester_player
           (Player.set_cameraController None tester_player) _ (1/60)
           (fun _ => false) facing_forward near_wall_scene tester_player_cleanup).
Defined.

(* ===================================================================== *)
(** * The demonstration program: the game *)

Lemma text_known :
  Game.text_left <> Game.text_unknown /\
  Game.text_right <> Game.text_unknown /\
  Game.text_centre <> Game.text_unknown.
Proof. repeat split; intros H; apply String.eqb_eq in H; discriminate H. Qed.

(** X18.  The game's [switchCameraSide] keeps the text in step with the
    camera: it moves the controller on to the next side and shows the text
    of that side, never the text for an unrecognised side, whatever value
    [currentSide] held before; it leaves the key map, the pusher and the
    traverser alone and touches no node. *)
Theorem game_switchCameraSide_shows_side
    (g : Game.state) (p : Player.state) (c : panda_rig) :
  Game.player g = Some p ->
  Player.cameraController p = Some c ->
  exists txt,
    Game.switchCameraSide g =
      Returns tt
        (Game.setText txt
           (Game.set_player
              (Some (Player.set_cameraController
                       (Some (set_currentSide (next_side (currentSide c)) c)) p)) g))
        [] /\
    txt <> Game.text_unknown /\
    (next_side (currentSide c) = SIMPLE_THIRD_PERSON_CAMERA_SIDE_LEFT ->
     txt = Game.text_left) /\
    (next_side (currentSide c) = SIMPLE_THIRD_PERSON_CAMERA_SIDE_RIGHT ->
     txt = Game.text_right) /\
    (next_side (currentSide c) = SIMPLE_THIRD_PERSON_CAMERA_SIDE_CENTRE ->
     txt = Game.text_centre).
Proof.
  intros Hp Hc.
  pose proof (next_side_is_side (currentSide c)) as Hside.
  destruct text_known as (Hleft & Hright & Hcentre).
  unfold Game.switchCameraSide, Game.updateCamPosText.
  unfold bind at 1. unfold Game.on_player at 1. rewrite Hp.
  rewrite (player_switch_unfold p Hc).
  unfold bind at 1. unfold Game.on_player, Player.on_controller, getattr.
  cbn [Game.player Game.set_player Player.cameraController
       Player.set_cameraController currentSide set_currentSide].
  revert Hside. generalize (next_side (currentSide c)) as side. intros side Hside.
  unfold SIMPLE_THIRD_PERSON_CAMERA_SIDE_LEFT,
    SIMPLE_THIRD_PERSON_CAMERA_SIDE_RIGHT,
    SIMPLE_THIRD_PERSON_CAMERA_SIDE_CENTRE, is_side in *.
  destruct (Req_dec_T side (-1)) as [Hl|Hl].
  - exists Game.text_left. split; [reflexivity|]. split; [exact Hleft|].
    repeat split; intros; try reflexivity; lra.
  - destruct (Req_dec_T side 1) as [Hr|Hr].
    + exists Game.text_right. split; [reflexivity|]. split; [exact Hright|].
      repeat split; intros; try reflexivity; lra.
    + destruct (Req_dec_T side 0) as [Hz|Hz].
      * exists Game.text_centre. split; [reflexivity|]. split; [exact Hcentre|].
        repeat split; intros; try reflexivity; lra.
      * exfalso. destruct Hside as [H | [H | H]]; contradiction.
Qed.

Lemma game_switchCameraSide_shows_side_witness :
  exists txt,
    Game.switchCameraSide tester_game =
      Returns tt
        (Game.setText txt
           (Game.set_player
              (Some (Player.set_cameraController
                       (Some (set_currentSide (next_side (currentSide tester_rig))
                                              tester_rig)) tester_player))
              tester_game))
        [] /\
    txt = Game.text_right.
Proof.
  destruct (@game_switchCameraSide_shows_side tester_game tester_player tester_rig
              eq_refl eq_refl) as (txt & Hrun & _ & _ & Hright & _).
  exists txt. split; [exact Hrun|].
  apply Hright. apply next_side_values.
Defined.

(** X19.  [updateKeyMap] records one control: afterwards the named control
    reads as the state given and every other control as before, and the
    player, the pusher, the traverser and the text are as they were. *)
Theorem updateKeyMap_records_one_control
    (g : Game.state) (controlName : string) (controlState : bool) :
  exists g',
    Game.updateKeyMap controlName controlState g = Returns tt g' [] /\
    Game.keyMap g' controlName = controlState /\
    (forall other, other <> controlName -> Game.keyMap g' other = Game.keyMap g other) /\
    Game.player g' = Game.player g /\
    Game.pusher g' = Game.pusher g /\
    Game.cTrav g' = Game.cTrav g /\
    Game.camPosText g' = Game.camPosText g.
Proof.
  eexists. split; [reflexivity|].
  cbn [Game.keyMap Game.set_keyMap Game.player Game.pusher Game.cTrav Game.camPosText].
  split; [rewrite String.eqb_refl; reflexivity|].
  split; [|repeat split].
  intros other Hother. apply String.eqb_neq in Hother. rewrite Hother. reflexivity.
Qed.

Lemma updateKeyMap_records_one_control_witness :
  exists g',
    Game.updateKeyMap "up"%string true tester_game = Returns tt g' [] /\
    Game.keyMap g' "up"%string = true /\
    Game.keyMap g' "down"%string = Game.keyMap tester_game "down"%string.
Proof.
  destruct (updateKeyMap_records_one_control tester_game "up"%string true)
    as (g' & Hrun & Hkey & Hother & _).
  exists g'. split; [exact Hrun|]. split; [exact Hkey|].
  apply Hother. discriminate.
Defined.

(** The game's [update] is the player's [update] with the game's key map. *)
Lemma game_update_unfold (g : Game.state) (p : Player.state) (dt : R)
    (orientationQuat : Quat) (render : SceneRoot) :
  Game.player g = Some p ->
  Game.update dt orientationQuat render g =
    match Player.update dt (Game.keyMap g) orientationQuat render p with
    | Returns a p' ops => Returns a (Game.set_player (Some p') g) ops
    | Raises e p' ops => Raises e (Game.set_player (Some p') g) ops
    end.
Proof.
  intros Hp. unfold Game.update. rewrite bind_getattr.
  unfold Game.on_player. rewrite Hp. reflexivity.
Qed.

(** X20.  A key pressed through [updateKeyMap] is what the next [update]
    of the game moves the player by: after [updateKeyMap(up, True)] on a
    game with no other movement key held, the frame pushes the velocity
    forward by [acceleration * dt] before the speed limit and applies no
    friction; the key map, the pusher, the traverser and the text stay as
    they were. *)
Theorem game_update_obeys_key_map
    (g : Game.state) (p : Player.state) (dt : R)
    (orientationQuat : Quat) (render : SceneRoot) :
  Game.player g = Some p ->
  Game.keyMap g "down"%string = false ->
  Game.keyMap g "right"%string = false ->
  Game.keyMap g "left"%string = false ->
  exists g1 p',
    Game.updateKeyMap "up"%string true g = Returns tt g1 [] /\
    final (Game.update dt orientationQuat render g1) = Game.set_player (Some p') g1 /\
    Player.velocity p' =
      speed_limited
        (vadd (Player.velocity p)
              (vscale (vscale (getForward orientationQuat) (Player.acceleration p)) dt))
        (Player.maxSpeed p).
Proof.
  intros Hp Hdown Hright Hleft.
  eexists.
  destruct (player_update_final p dt
              (Game.keyMap (Game.set_keyMap
                 (fun key => if String.eqb key "up" then true else Game.keyMap g key) g))
              orientationQuat render) as [ctl Hfinal].
  eexists. split; [reflexivity|].
  rewrite game_update_unfold with (p := p) by exact Hp.
  split.
  - destruct (Player.update _ _ _ _ p); cbn [final] in *; rewrite Hfinal; reflexivity.
  - unfold moved, walking, key_push.
    cbn [Player.velocity Player.set_cameraController Game.keyMap Game.set_keyMap
         String.eqb Ascii.eqb Bool.eqb].
    rewrite Hdown, Hright, Hleft. reflexivity.
Qed.

Lemma game_update_obeys_key_map_witness :
  exists g1 p',
    Game.updateKeyMap "up"%string true tester_game = Returns tt g1 [] /\
    final (Game.update (1/60) facing_forward near_wall_scene g1)
      = Game.set_player (Some p') g1 /\
    Player.velocity p' =
      speed_limited
        (vadd (Player.velocity tester_player)
              (vscale (vscale (getForward facing_forward)
                              (Player.acceleration tester_player)) (1/60)))
        (Player.maxSpeed tester_player).
Proof.
  apply (@game_update_obeys_key_map tester_game tester_player (1/60)
           facing_forward near_wall_scene eq_refl eq_refl eq_refl eq_refl).
Defined.

(** X21.  The game's [cleanup], when it returns, has dropped the pusher, the
    traverser and the player; a second [cleanup] then returns, changes
    nothing and touches no node, while [update] and [switchCameraSide]
    raise [AttributeError] and change nothing. *)
Theorem game_cleanup_releases (g g1 : Game.state) (ops : list SceneOp) :
  Game.cleanup g = Returns tt g1 ops ->
  Game.pusher g1 = None /\ Game.cTrav g1 = None /\ Game.player g1 = None /\
  Game.keyMap g1 = Game.keyMap g /\ Game.camPosText g1 = Game.camPosText g /\
  Game.cleanup g1 = Returns tt g1 [] /\
  (forall dt orientationQuat render,
     Game.update dt orientationQuat render g1 = Raises AttributeError g1 []) /\
  Game.switchCameraSide g1 = Raises AttributeError g1 [].
Proof.
  destruct g as [km pl pu tr txt].
  unfold Game.cleanup, Game.on_player, bind, getattr, assign, call, deref, ret, raise.
  cbn [Game.keyMap Game.player Game.pusher Game.cTrav Game.camPosText
       Game.set_player Game.set_pusher Game.set_cTrav].
  destruct pu, tr, pl as [p|];
    cbn [Game.keyMap Game.player Game.pusher Game.cTrav Game.camPosText
         Game.set_player Game.set_pusher Game.set_cTrav app];
    try (intros H; discriminate H);
    try (destruct (Player.cleanup p) as [[] p' ops'|e p' ops']);
    intros H; inversion H; subst; repeat split.
Qed.

Lemma tester_game_cleanup :
  Game.cleanup tester_game =
    Returns tt
      (Game.mkGame (fun _ => false) None None None Game.text_left)
      [ RemoveCollider (Created "player collider");
        RemoveCollider (Created "player collider");
        DetachNode (Borrowed 1%nat);
        RemoveCollider (Created "camera collider");
        RemoveNode (Created "camera collider");
        RemoveNode (Created "third-person camera-base") ].
Proof.
  unfold Game.cleanup, tester_game, Game.on_player, bind, getattr, assign, call,
    deref, ret, raise.
  cbn [Game.keyMap Game.player Game.pusher Game.cTrav Game.camPosText
       Game.set_player Game.set_pusher Game.set_cTrav].
  rewrite tester_player_cleanup. reflexivity.
Qed.

Lemma game_cleanup_releases_witness :
  let g1 := Game.mkGame (fun _ => false) None None None Game.text_left in
  Game.cleanup g1 = Returns tt g1 [] /\
  Game.update (1/60) facing_forward near_wall_scene g1 = Raises AttributeError g1 [].
Proof.
  intros g1.
  pose proof (@game_cleanup_releases tester_game g1 _ tester_game_cleanup)
    as (_ & _ & _ & _ & _ & Hagain & Hupdate & _).
  split; [exact Hagain|apply Hupdate].
Defined.

(* ===================================================================== *)
(** * The demonstration program: frames in a row *)

Lemma player_update_live (p : Player.state) (c : panda_rig) (dt : R)
    (keyMap : string -> bool) (orientationQuat : Quat) (sceneRoot : SceneRoot) :
  Player.cameraController p = Some c ->
  live c ->
  exists c',
    Player.update dt keyMap orientationQuat sceneRoot p =
      Returns tt (Player.set_cameraController (Some c')
                    (moved p dt keyMap orientationQuat)) [] /\
    live c'.
Proof.
  intros Hc Hlive.
  destruct (live_update_returns dt sceneRoot Hlive) as (c' & Hrun & Hlive').
  exists c'. split; [|exact Hlive'].
  rewrite player_update_unfold. unfold Player.on_controller.
  unfold moved at 1. cbn [Player.cameraController]. rewrite Hc.
  unfold controller_update. rewrite Hrun. reflexivity.
Qed.

Lemma idle_frame_speed (p : Player.state) (dt : R) (keyMap : string -> bool)
    (orientationQuat : Quat) :
  walking keyMap = false ->
  0 <= Player.maxSpeed p ->
  0 <= Player.friction p * dt ->
  vlength (Player.velocity (moved p dt keyMap orientationQuat))
    = Rmax 0 (Rmin (vlength (Player.velocity p)) (Player.maxSpeed p)
              - Player.friction p * dt).
Proof.
  intros Hidle Htop Hfr.
  pose proof (@speed_limited_length (Player.velocity p) (Player.maxSpeed p) Htop)
    as (Hlen & _).
  unfold moved. rewrite (@key_push_idle p dt keyMap orientationQuat Hidle), Hidle.
  cbn [Player.velocity]. rewrite <- Hlen. rewrite slowed_length by exact Hfr.
  rewrite Hlen, limited_speed_Rmin. reflexivity.
Qed.

(** X22.  Letting go of the movement keys brings the player to rest: with a
    controller whose references are in place, every [Player.update]
    returns and touches no node, and after [n] frames of the same length
    with no movement key held, where [n * friction * dt] covers the speed
    the player had, the velocity is exactly zero. *)
Theorem released_keys_bring_player_to_rest
    (n : nat) (dt : R) (keyMap : string -> bool) (orientationQuat : Quat)
    (sceneRoot : SceneRoot) (p : Player.state) (c : panda_rig) :
  walking keyMap = false ->
  Player.cameraController p = Some c ->
  live c ->
  0 <= Player.maxSpeed p ->
  0 <= Player.friction p * dt ->
  vlength (Player.velocity p) <= INR n * (Player.friction p * dt) ->
  exists p',
    times n (Player.update dt keyMap orientationQuat sceneRoot) p = Returns tt p' [] /\
    Player.velocity p' = mkVec3 0 0 0.
Proof.
  intros Hidle. revert p c.
  induction n as [|n IH]; intros p c Hc Hlive Htop Hfr Hspeed.
  - exists p. split; [reflexivity|].
    apply vlength_zero_vector. pose proof (vlength_nonneg (Player.velocity p)).
    cbn [INR] in Hspeed. lra.
  - destruct (@player_update_live p c dt keyMap orientationQuat sceneRoot Hc Hlive)
      as (c' & Hrun & Hlive').
    pose proof (@idle_frame_speed p dt keyMap orientationQuat Hidle Htop Hfr) as Hnext.
    destruct (IH (Player.set_cameraController (Some c')
                    (moved p dt keyMap orientationQuat)) c')
      as (p' & Hrest & Hzero).
    + reflexivity.
    + exact Hlive'.
    + exact Htop.
    + exact Hfr.
    + change (vlength (Player.velocity (moved p dt keyMap orientationQuat))
              <= INR n * (Player.friction p * dt)).
      rewrite Hnext. rewrite S_INR in Hspeed.
      pose proof (vlength_nonneg (Player.velocity p)) as Hpos.
      assert (Hn : 0 <= INR n) by apply pos_INR.
      unfold Rmax, Rmin.
      destruct (Rle_dec (vlength (Player.velocity p)) (Player.maxSpeed p));
        destruct (Rle_dec _ _); nra.
    + exists p'. split; [|exact Hzero].
      cbn [times]. unfold bind. rewrite Hrun, Hrest. reflexivity.
Qed.

Lemma released_keys_bring_player_to_rest_witness :
  exists p',
    times 1 (Player.update (1/60) (fun _ => false) facing_forward near_wall_scene)
          tester_player = Returns tt p' [] /\
    Player.velocity p' = mkVec3 0 0 0.
Proof.
  apply (@released_keys_bring_player_to_rest 1 (1/60) (fun _ => false)
           facing_forward near_wall_scene tester_player tester_rig eq_refl eq_refl).
  - apply (panda_constructed_live (-5) 5 0.5 2 7 10
             SIMPLE_THIRD_PERSON_CAMERA_SIDE_LEFT 0%nat 1%nat 0.5).
  - cbn. lra.
  - cbn. lra.
  - cbn [tester_player Player.velocity]. rewrite vlength_origin.
    cbn. lra.
Defined.
